(** * Verification of the preprocessing pipeline [DataProcessing]

    Source: [src/ML/components/data_processing.py].

    The pipeline is a sequence of stages mutating one pandas table.  Each
    stage is embedded as a function from the table before the call to the
    table after it, or to the exception the call raises.  The pandas,
    scikit-learn and imbalanced-learn calls made by the stages are embedded
    with the behaviour they have for the arguments the source passes.

    Numbers are exact rationals ([Qc]): binary64 rounding is not modelled,
    so every numeric statement below is about the arithmetic the code
    performs, computed without rounding error. *)

From Stdlib Require Import String Ascii.
From Stdlib Require Import ZArith QArith Qcanon.
From Stdlib Require Import List Arith PeanoNat Bool Lia Permutation.
Import ListNotations.
Open Scope string_scope.
Open Scope nat_scope.
Open Scope list_scope.

Set Implicit Arguments.

(** ** Exceptions and results *)

(** The three exception classes the library calls of the source raise.
    [KeyError] carries the labels that were not found. *)
Inductive exn : Type :=
| KeyError (missing : list string)
| ValueError
| TypeError.

Inductive result (A : Type) : Type :=
| Ok (a : A)
| Err (e : exn).

Arguments Ok {A} a.
Arguments Err {A} e.

Definition bind {A B : Type} (r : result A) (k : A -> result B) : result B :=
  match r with
  | Ok a => k a
  | Err e => Err e
  end.

Notation "x <- r ;; k" := (bind r (fun x => k))
  (at level 61, r at next level, right associativity).

(** ** Series and tables *)

(** A pandas column has one dtype: numeric (int64 or float64) or object
    holding strings.  [read_csv] never yields an object column whose
    entries all parse as numbers, so an object column is not convertible
    to float64. *)
Inductive Series : Type :=
| NumSeries (v : list Qc)
| StrSeries (v : list string).

Inductive cell : Type :=
| CNum (q : Qc)
| CStr (s : string).

Definition series_len (s : Series) : nat :=
  match s with
  | NumSeries v => length v
  | StrSeries v => length v
  end.

Definition series_cells (s : Series) : list cell :=
  match s with
  | NumSeries v => map CNum v
  | StrSeries v => map CStr v
  end.

(** [s.iloc[i]] *)
Definition iloc (s : Series) (i : nat) : option cell :=
  nth_error (series_cells s) i.

(** Positional selection [s.iloc[idx]] (numpy fancy indexing); positions are
    always in range where the source uses it. *)
Definition take_list {A : Type} (v : list A) (idx : list nat) : list A :=
  flat_map (fun i => match nth_error v i with Some x => [x] | None => [] end) idx.

Definition take (s : Series) (idx : list nat) : Series :=
  match s with
  | NumSeries v => NumSeries (take_list v idx)
  | StrSeries v => StrSeries (take_list v idx)
  end.

(** A DataFrame: the length of its index and its named columns, in order.
    Column labels are taken to be pairwise distinct, as [read_csv] makes
    them (duplicates in the header are renamed on load); a label addresses
    the first column that carries it. *)
Record DataFrame : Type := mkDataFrame {
  nrows : nat;
  columns : list (string * Series)
}.

Definition names (df : DataFrame) : list string := map fst (columns df).

Definition has_column (df : DataFrame) (name : string) : bool :=
  existsb (String.eqb name) (names df).

(** Every column of a table is as long as its index. *)
Definition aligned (df : DataFrame) : bool :=
  forallb (fun c => series_len (snd c) =? nrows df) (columns df).

(** *** pandas operations used by the stages *)

Fixpoint lookup (name : string) (cols : list (string * Series)) : option Series :=
  match cols with
  | [] => None
  | (n, s) :: r => if String.eqb name n then Some s else lookup name r
  end.

(** [df[name]] *)
Definition getitem (df : DataFrame) (name : string) : result Series :=
  match lookup name (columns df) with
  | Some s => Ok s
  | None => Err (KeyError [name])
  end.

Fixpoint replace_col (name : string) (s : Series) (cols : list (string * Series))
  : list (string * Series) :=
  match cols with
  | [] => []
  | (n, s0) :: r =>
      if String.eqb name n then (n, s) :: r else (n, s0) :: replace_col name s r
  end.

(** [df[name] = s]: an existing column is overwritten in place, a new one
    is appended; a value of the wrong length is refused. *)
Definition setitem (df : DataFrame) (name : string) (s : Series) : result DataFrame :=
  if series_len s =? nrows df then
    if has_column df name
    then Ok (mkDataFrame (nrows df) (replace_col name s (columns df)))
    else Ok (mkDataFrame (nrows df) (columns df ++ [(name, s)]))
  else Err ValueError.

Definition mem (name : string) (l : list string) : bool :=
  existsb (String.eqb name) l.

(** [df.drop(labels, axis=1)]: every label must be a column. *)
Definition drop (df : DataFrame) (labels : list string) : result DataFrame :=
  match filter (fun l => negb (has_column df l)) labels with
  | [] => Ok (mkDataFrame (nrows df)
                (filter (fun c => negb (mem (fst c) labels)) (columns df)))
  | missing => Err (KeyError missing)
  end.

(** [df.rename(columns={old: new})]: a label that is not a column is
    ignored (the default [errors='ignore']). *)
Definition rename (df : DataFrame) (old new : string) : DataFrame :=
  mkDataFrame (nrows df)
    (map (fun c => if String.eqb (fst c) old then (new, snd c) else c) (columns df)).

(** [df[labels]] with a list of labels. *)
Definition getitems (df : DataFrame) (labels : list string) : result (list Series) :=
  match filter (fun l => negb (has_column df l)) labels with
  | [] => Ok (flat_map (fun l => match lookup l (columns df) with
                                 | Some s => [s] | None => [] end) labels)
  | missing => Err (KeyError missing)
  end.

(** [df[labels] = values], column by column. *)
Fixpoint setitems (df : DataFrame) (labels : list string) (values : list Series)
  : result DataFrame :=
  match labels, values with
  | l :: ls, v :: vs => df' <- setitem df l v ;; setitems df' ls vs
  | _, _ => Ok df
  end.

(** Positional row selection on a whole table, with a fresh range index. *)
Definition take_rows (df : DataFrame) (idx : list nat) : DataFrame :=
  mkDataFrame (length idx) (map (fun c => (fst c, take (snd c) idx)) (columns df)).

(** The cell of column [name] at row [i]. *)
Definition cell_at (df : DataFrame) (name : string) (i : nat) : option cell :=
  match lookup name (columns df) with
  | Some s => iloc s i
  | None => None
  end.

(** The label column and the remaining (feature) columns. *)
Definition label : string := "type_of_failure".

Definition feature_columns (df : DataFrame) : list (string * Series) :=
  filter (fun c => negb (mem (fst c) [label])) (columns df).

(** ** Stage 2: [rename_and_drop_columns] (lines 22-26) *)

Definition rename_and_drop_columns (df : DataFrame) : result DataFrame :=
  let df1 := rename df "Target" "Machine failure" in
  drop df1 ["UDI"; "Product ID"].

(** ** Stage 3: [convert_temperature] (lines 28-33) *)

(** The literal [273.15]. *)
Definition kelvin_offset : Qc := Q2Qc (27315 # 100).

(** [series - 273.15]: elementwise on numbers; on strings the operand types
    are unsupported (an empty object column has nothing to subtract from). *)
Definition series_sub (s : Series) (c : Qc) : result Series :=
  match s with
  | NumSeries v => Ok (NumSeries (map (fun k => (k - c)%Qc) v))
  | StrSeries [] => Ok (StrSeries [])
  | StrSeries (_ :: _) => Err TypeError
  end.

Definition convert_temperature (df : DataFrame) : result DataFrame :=
  air <- getitem df "Air temperature [K]" ;;
  airc <- series_sub air kelvin_offset ;;
  df1 <- setitem df "Air temperature [c]" airc ;;
  proc <- getitem df1 "Process temperature [K]" ;;
  procc <- series_sub proc kelvin_offset ;;
  df2 <- setitem df1 "Process temperature [c]" procc ;;
  drop df2 ["Air temperature [K]"; "Process temperature [K]"].


(** ** Sorted classes of a column ([np.unique], [sorted(set(values))]) *)

Section Classes.
Variable A : Type.
Variable cmp : A -> A -> comparison.

Definition is_eq (x y : A) : bool :=
  match cmp x y with Eq => true | _ => false end.

Fixpoint insert (x : A) (l : list A) : list A :=
  match l with
  | [] => [x]
  | y :: r =>
      match cmp x y with
      | Lt => x :: l
      | Eq => l
      | Gt => y :: insert x r
      end
  end.

(** The distinct values of [v] in increasing order. *)
Definition unique_sorted (v : list A) : list A := fold_right insert [] v.

(** Position of [x] in [l] (the inverse mapping of [np.unique]). *)
Fixpoint index_of (x : A) (l : list A) : nat :=
  match l with
  | [] => 0
  | y :: r => if is_eq x y then 0 else S (index_of x r)
  end.

Definition count (c : A) (y : list A) : nat :=
  length (filter (fun x => is_eq x c) y).

(** [np.flatnonzero(y == c)], positions counted from [i]. *)
Fixpoint flatnonzero_eq (c : A) (y : list A) (i : nat) : list nat :=
  match y with
  | [] => []
  | x :: r =>
      if is_eq x c then i :: flatnonzero_eq c r (S i) else flatnonzero_eq c r (S i)
  end.

(** [_count_class_sample]: the classes in sorted order with their counts. *)
Definition target_stats (y : list A) : list (A * nat) :=
  map (fun c => (c, count c y)) (unique_sorted y).

Definition n_sample_majority (stats : list (A * nat)) : nat :=
  fold_right Nat.max 0 (map snd stats).

(** [_sampling_strategy_not_majority]: every class but the majority one
    (the first class reaching the largest count) is to receive the
    difference to the largest count. *)
Definition sampling_strategy_not_majority (stats : list (A * nat)) : list (A * nat) :=
  let n_max := n_sample_majority stats in
  match find (fun p => snd p =? n_max) stats with
  | Some (class_majority, _) =>
      map (fun p => (fst p, n_max - snd p))
          (filter (fun p => negb (is_eq (fst p) class_majority)) stats)
  | None => []
  end.

(** The labels of the rows a sampling strategy adds: each class repeated
    as often as the strategy asks. *)
Definition extra_labels (strategy : list (A * nat)) : list A :=
  flat_map (fun p => repeat (fst p) (snd p)) strategy.
End Classes.

(** The comparisons used on column values are total orders. *)
Class TotalOrder {A : Type} (cmp : A -> A -> comparison) : Prop := {
  cmp_eq : forall x y, cmp x y = Eq <-> x = y;
  cmp_antisym : forall x y, cmp x y = CompOpp (cmp y x);
  cmp_trans : forall x y z, cmp x y = Lt -> cmp y z = Lt -> cmp x z = Lt
}.

(** Strictly increasing lists. *)
Fixpoint increasing {A : Type} (cmp : A -> A -> comparison) (l : list A) : Prop :=
  match l with
  | [] => True
  | x :: r => Forall (fun y => cmp x y = Lt) r /\ increasing cmp r
  end.

Definition Qc_of_nat (n : nat) : Qc := Q2Qc (inject_Z (Z.of_nat n)).

(** Counting rows by label, on the cells of a column. *)
Definition cell_eqb (a b : cell) : bool :=
  match a, b with
  | CNum x, CNum y => match (x ?= y)%Qc with Eq => true | _ => false end
  | CStr x, CStr y => String.eqb x y
  | _, _ => false
  end.

Definition count_cells (c : cell) (s : Series) : nat :=
  length (filter (cell_eqb c) (series_cells s)).

(** The largest number of rows any one label has. *)
Definition max_class_count (s : Series) : nat :=
  fold_right Nat.max 0 (map (fun c => count_cells c s) (series_cells s)).

(** ** Stage 4: [encode_features] (lines 35-42) *)

Definition type_categories : list string := ["L"; "M"; "H"].

(** [OrdinalEncoder(categories=[cats]).fit_transform] on one column, with the
    default [handle_unknown='error']: a value outside [cats] is refused at
    fit; a numeric column cannot be matched against string categories; an
    empty column is refused by input validation. *)
Definition ordinal_fit_transform (cats : list string) (s : Series) : result Series :=
  match s with
  | NumSeries _ => Err ValueError
  | StrSeries [] => Err ValueError
  | StrSeries v =>
      if forallb (fun x => mem x cats) v
      then Ok (NumSeries (map (fun x => Qc_of_nat (index_of String.compare x cats)) v))
      else Err ValueError
  end.

(** [LabelEncoder().fit_transform]: [classes_] are the distinct values in
    sorted order and each value is replaced by its position in [classes_]. *)
Definition label_codes (A : Type) (cmp : A -> A -> comparison) (v : list A) : list nat :=
  map (fun x => index_of cmp x (unique_sorted cmp v)) v.

Definition label_fit_transform (s : Series) : Series :=
  match s with
  | NumSeries v => NumSeries (map Qc_of_nat (label_codes Qccompare v))
  | StrSeries v => NumSeries (map Qc_of_nat (label_codes String.compare v))
  end.

Definition encode_features (df : DataFrame) : result DataFrame :=
  typ <- getitem df "Type" ;;
  ranks <- ordinal_fit_transform type_categories typ ;;
  df1 <- setitem df "Type" ranks ;;
  failure <- getitem df1 "Failure Type" ;;
  setitem df1 "type_of_failure" (label_fit_transform failure).

(** ** Stage 5: [scale_features] (lines 44-49) *)

Definition col_to_scale : list string :=
  ["Rotational speed [rpm]"; "Torque [Nm]"; "Tool wear [min]";
   "Air temperature [c]"; "Process temperature [c]"].

Definition Qcltb (x y : Qc) : bool :=
  match (x ?= y)%Qc with Lt => true | _ => false end.

Definition Qcmin (x y : Qc) : Qc := if Qcltb y x then y else x.
Definition Qcmax (x y : Qc) : Qc := if Qcltb x y then y else x.

Definition data_min (v : list Qc) : Qc :=
  match v with [] => 0%Qc | x :: r => fold_left Qcmin r x end.
Definition data_max (v : list Qc) : Qc :=
  match v with [] => 0%Qc | x :: r => fold_left Qcmax r x end.

(** [np.finfo(np.float64).eps] *)
Definition float_eps : Qc := Q2Qc (1 # 4503599627370496).

(** [_handle_zeros_in_scale]: a range below [10 * eps] is treated as
    constant and replaced by 1. *)
Definition handle_zeros_in_scale (scale : Qc) : Qc :=
  if Qcltb scale (Qc_of_nat 10 * float_eps)%Qc then 1%Qc else scale.

(** [MinMaxScaler().fit_transform] on one column, [feature_range=(0, 1)]. *)
Definition minmax_column (v : list Qc) : list Qc :=
  let data_range := (data_max v - data_min v)%Qc in
  let scale_ := ((1 - 0) / handle_zeros_in_scale data_range)%Qc in
  let min_ := (0 - data_min v * scale_)%Qc in
  map (fun x => (x * scale_ + min_)%Qc) v.

Fixpoint as_float_columns (cols : list Series) : result (list (list Qc)) :=
  match cols with
  | [] => Ok []
  | NumSeries v :: r => vs <- as_float_columns r ;; Ok (v :: vs)
  | StrSeries _ :: _ => Err ValueError
  end.

(** Input validation (conversion to float64, at least one row), then the
    column-wise transform. *)
Definition minmax_fit_transform (n_samples : nat) (cols : list Series)
  : result (list Series) :=
  X <- as_float_columns cols ;;
  if n_samples =? 0 then Err ValueError
  else Ok (map (fun v => NumSeries (minmax_column v)) X).

Definition scale_features (df : DataFrame) : result DataFrame :=
  X <- getitems df col_to_scale ;;
  scaled <- minmax_fit_transform (nrows df) X ;;
  setitems df col_to_scale scaled.

(** ** Random sources *)

(** The part of [numpy.random.RandomState] the pipeline draws from:
    construction from a seed, one bounded integer, one permutation. *)
Class RandomSource (G : Type) : Type := {
  seed : nat -> G;
  randint : G -> nat -> nat * G;
  permutation : G -> nat -> list nat * G;
  randint_lt : forall g high, 0 < high -> fst (randint g high) < high;
  permutation_perm : forall g n, Permutation (fst (permutation g n)) (seq 0 n)
}.

(** ** Stage 6: [oversample_data] (lines 51-58) *)

Section RandomisedStages.
Context {G : Type} `{RandomSource G}.

(** [random_state.choice(pool, size, replace=True)] *)
Fixpoint choice (g : G) (pool : list nat) (size : nat) : list nat * G :=
  match size with
  | 0 => ([], g)
  | S k =>
      let (r, g1) := randint g (length pool) in
      let (rest, g2) := choice g1 pool k in
      (nth r pool 0 :: rest, g2)
  end.

(** The loop of [RandomOverSampler._fit_resample] over the classes of the
    sampling strategy. *)
Fixpoint bootstrap (A : Type) (cmp : A -> A -> comparison) (y : list A)
    (strategy : list (A * nat)) (g : G) : list nat * G :=
  match strategy with
  | [] => ([], g)
  | (class_sample, num_samples) :: r =>
      let (picked, g1) := choice g (flatnonzero_eq cmp class_sample y 0) num_samples in
      let (rest, g2) := bootstrap cmp y r g1 in
      (picked ++ rest, g2)
  end.

(** [check_sampling_strategy('auto', y, 'over-sampling')] followed by
    [_fit_resample]: the positions of the resampled rows. *)
Definition resample_indices (A : Type) (cmp : A -> A -> comparison) (y : list A)
    (g : G) : result (list nat) * G :=
  if length (unique_sorted cmp y) <=? 1 then (Err ValueError, g)
  else
    let strategy := sampling_strategy_not_majority cmp (target_stats cmp y) in
    let (extra, g') := bootstrap cmp y strategy g in
    (Ok (seq 0 (length y) ++ extra), g').

Definition is_integral (q : Qc) : bool := (Qden (this q) =? 1)%positive.

(** [check_classification_targets]: numeric labels must be whole numbers
    (a column with a fractional value is a continuous target). *)
Definition classification_target (y : Series) : bool :=
  match y with
  | NumSeries v => forallb is_integral v
  | StrSeries _ => true
  end.

(** [RandomOverSampler(sampling_strategy='auto').fit_resample(X, y)] with
    the default [random_state=None], that is, drawing from the generator
    [g] shared by the whole process.  Input validation refuses [X] and
    [y] of different lengths, non-integral numeric labels and an empty
    table. *)
Definition fit_resample (X : DataFrame) (y : Series) (g : G)
  : result (DataFrame * Series) * G :=
  let checked :=
    if negb (classification_target y) then (Err ValueError, g)
    else if negb (series_len y =? nrows X) then (Err ValueError, g)
    else if nrows X =? 0 then (Err ValueError, g)
    else
      match y with
      | NumSeries v => resample_indices Qccompare v g
      | StrSeries v => resample_indices String.compare v g
      end in
  match checked with
  | (Ok sample_indices, g') =>
      (Ok (take_rows X sample_indices, take y sample_indices), g')
  | (Err e, g') => (Err e, g')
  end.

(** The labels [fit_resample] returns: the input labels followed by the
    labels of the rows the sampling strategy adds.  No draw enters. *)
Definition resampled_labels (y : Series) : Series :=
  match y with
  | NumSeries v =>
      NumSeries (v ++ extra_labels
         (sampling_strategy_not_majority Qccompare (target_stats Qccompare v)))
  | StrSeries v =>
      StrSeries (v ++ extra_labels
         (sampling_strategy_not_majority String.compare (target_stats String.compare v)))
  end.

(** [pd.concat([X, y], axis=1)] for a table and a named column sharing a
    range index. *)
Definition concat_axis1 (X : DataFrame) (name : string) (y : Series) : DataFrame :=
  mkDataFrame (nrows X) (columns X ++ [(name, y)]).

Definition oversample_data (df : DataFrame) (g : G) : result DataFrame * G :=
  match drop df ["type_of_failure"] with
  | Err e => (Err e, g)
  | Ok X =>
      match getitem df "type_of_failure" with
      | Err e => (Err e, g)
      | Ok y =>
          match fit_resample X y g with
          | (Ok (X_resampled, y_resampled), g') =>
              (Ok (concat_axis1 X_resampled "type_of_failure" y_resampled), g')
          | (Err e, g') => (Err e, g')
          end
      end
  end.

(** ** Stage 7: [train_test_split] (lines 60-68) *)

(** [_validate_shuffle_split] for [test_size=0.2], [train_size=None]:
    [n_test = ceil(0.2 * n)], [n_train = n - n_test], and an empty train
    set is refused. *)
Definition validate_shuffle_split (n_samples : nat) : result (nat * nat) :=
  let n_test := (n_samples + 4) / 5 in
  let n_train := n_samples - n_test in
  if n_train =? 0 then Err ValueError else Ok (n_train, n_test).

(** The four tables written to [X_train.csv], [X_test.csv], [y_train.csv]
    and [y_test.csv]. *)
Record Artifacts : Type := mkArtifacts {
  X_train : DataFrame;
  X_test : DataFrame;
  y_train : Series;
  y_test : Series
}.

(** [sklearn.model_selection.train_test_split(X, y, test_size=0.2,
    random_state=42)]: one iteration of [ShuffleSplit] on a generator
    freshly built from the seed. *)
Definition sk_train_test_split (X : DataFrame) (y : Series) (random_state : nat)
  : result Artifacts :=
  _ <- (if series_len y =? nrows X then Ok tt else Err ValueError) ;;
  sizes <- validate_shuffle_split (nrows X) ;;
  let (n_train, n_test) := sizes in
  let rng := seed random_state in
  let perm := fst (permutation rng (nrows X)) in
  let ind_test := firstn n_test perm in
  let ind_train := firstn n_train (skipn n_test perm) in
  Ok (mkArtifacts (take_rows X ind_train) (take_rows X ind_test)
                  (take y ind_train) (take y ind_test)).

(** The process-wide generator [g] is not consulted. *)
Definition train_test_split (df : DataFrame) (g : G) : result Artifacts * G :=
  (X <- drop df ["type_of_failure"] ;;
   y <- getitem df "type_of_failure" ;;
   sk_train_test_split X y 42, g).
End RandomisedStages.


(** ** A reference generator *)

(** A counter-based generator: the state is the number of draws made so
    far plus the seed, a bounded draw is the state reduced modulo the bound,
    and a permutation is the identity rotated by the state.  It is used to
    run the stages on concrete tables. *)
Definition counter_randint (g high : nat) : nat * nat := (g mod high, S g).

Definition counter_permutation (g n : nat) : list nat * nat :=
  (skipn (g mod n) (seq 0 n) ++ firstn (g mod n) (seq 0 n), S g).

#[export] Instance CounterSource : RandomSource nat.
Proof.
  refine {| seed := fun s => s;
            randint := counter_randint;
            permutation := counter_permutation |}.
  - intros g high Hpos. simpl. apply Nat.mod_upper_bound. lia.
  - intros g n. simpl.
    rewrite <- (firstn_skipn (g mod n) (seq 0 n)) at 3.
    apply Permutation_app_comm.
Defined.

(** ** Concrete tables *)

Definition int (n : Z) : Qc := Q2Qc (inject_Z n).
Definition tenths (n : Z) : Qc := Q2Qc (n # 10).

Definition table_of (r : result DataFrame) : DataFrame :=
  match r with
  | Ok df => df
  | Err _ => mkDataFrame 0 []
  end.

Definition raw_torque : list Qc := map tenths [428; 463; 494; 395; 400; 419]%Z.

(** Six rows in the layout of the raw input file. *)
Definition raw_df : DataFrame :=
  mkDataFrame 6
    [("UDI", NumSeries (map int [1; 2; 3; 4; 5; 6]%Z));
     ("Product ID",
      StrSeries ["M14860"; "L47181"; "L47182"; "H29424"; "L47184"; "M14865"]);
     ("Type", StrSeries ["M"; "L"; "L"; "H"; "L"; "M"]);
     ("Air temperature [K]",
      NumSeries (map tenths [2981; 2982; 2981; 2982; 2983; 2981]%Z));
     ("Process temperature [K]",
      NumSeries (map tenths [3086; 3087; 3085; 3086; 3087; 3086]%Z));
     ("Rotational speed [rpm]",
      NumSeries (map int [1551; 1408; 1498; 1433; 1408; 1425]%Z));
     ("Torque [Nm]", NumSeries raw_torque);
     ("Tool wear [min]", NumSeries (map int [0; 3; 5; 7; 9; 11]%Z));
     ("Target", NumSeries (map int [0; 0; 1; 0; 1; 1]%Z));
     ("Failure Type",
      StrSeries ["No Failure"; "No Failure"; "Power Failure"; "No Failure";
                 "Heat Dissipation Failure"; "Power Failure"])].

Definition normalized_df : DataFrame :=
  Eval vm_compute in table_of (rename_and_drop_columns raw_df).

Definition celsius_df : DataFrame :=
  Eval vm_compute in table_of (convert_temperature normalized_df).

Definition encoded_df : DataFrame :=
  Eval vm_compute in table_of (encode_features celsius_df).

Definition scaled_df : DataFrame :=
  Eval vm_compute in table_of (scale_features encoded_df).

Definition balanced_df : DataFrame :=
  Eval vm_compute in table_of (fst (oversample_data scaled_df 0)).

(** A table with the identifier columns but no [Target] column. *)
Definition no_target_df : DataFrame :=
  mkDataFrame 1
    [("UDI", NumSeries [int 1]);
     ("Product ID", StrSeries ["M14860"]);
     ("Type", StrSeries ["M"])].




(** Two failure types, the alphabetically later one appearing first. *)
Definition two_failures_df : DataFrame :=
  mkDataFrame 2
    [("Type", StrSeries ["L"; "M"]);
     ("Failure Type", StrSeries ["No Failure"; "Heat Dissipation Failure"])].


(** ** The label encoding as the specification words it *)

(** Codes in order of first appearance: the code of a value is the number
    of distinct values seen before its first occurrence. *)
Fixpoint first_seen (seen : list string) (v : list string) : list string :=
  match v with
  | [] => seen
  | x :: r => if mem x seen then first_seen seen r else first_seen (seen ++ [x]) r
  end.

Definition first_appearance_codes (v : list string) : list nat :=
  map (fun x => index_of String.compare x (first_seen [] v)) v.


(** The split of the balanced sample table. *)
Definition sample_split : Artifacts :=
  Eval vm_compute in
    match fst (train_test_split balanced_df 0) with
    | Ok a => a
    | Err _ => mkArtifacts (mkDataFrame 0 []) (mkDataFrame 0 []) (NumSeries []) (NumSeries [])
    end.

(** ** The object [DataProcessing] and its in-place stages *)

(** [__init__] (lines 13-15) leaves [self.df] at [None]; each stage then
    works on [self.df] in place.  A stage is a function from the content of
    [self.df] before the call to what the call does and the content of
    [self.df] after it, also when the call raises part-way. *)
Inductive outcome : Type :=
| Done
| Raises (e : exn)
| RaisesAttributeError.

Definition init : option DataFrame := None.

(** Lines 24-25: [rename(..., inplace=True)] has taken effect when [drop]
    raises. *)
Definition self_rename_and_drop_columns (self_df : option DataFrame)
  : outcome * option DataFrame :=
  match self_df with
  | None => (RaisesAttributeError, None)
  | Some df =>
      let df1 := rename df "Target" "Machine failure" in
      match drop df1 ["UDI"; "Product ID"] with
      | Ok df2 => (Done, Some df2)
      | Err e => (Raises e, Some df1)
      end
  end.

(** Lines 30-32: each assignment takes effect before the next line runs.
    Subscripting [None] is a [TypeError]. *)
Definition self_convert_temperature (self_df : option DataFrame)
  : outcome * option DataFrame :=
  match self_df with
  | None => (Raises TypeError, None)
  | Some df =>
      match (air <- getitem df "Air temperature [K]" ;;
             airc <- series_sub air kelvin_offset ;;
             setitem df "Air temperature [c]" airc) with
      | Err e => (Raises e, Some df)
      | Ok df1 =>
          match (proc <- getitem df1 "Process temperature [K]" ;;
                 procc <- series_sub proc kelvin_offset ;;
                 setitem df1 "Process temperature [c]" procc) with
          | Err e => (Raises e, Some df1)
          | Ok df2 =>
              match drop df2 ["Air temperature [K]"; "Process temperature [K]"] with
              | Ok df3 => (Done, Some df3)
              | Err e => (Raises e, Some df2)
              end
          end
      end
  end.

(** Lines 37-41: [Type] is overwritten before [Failure Type] is read. *)
Definition self_encode_features (self_df : option DataFrame)
  : outcome * option DataFrame :=
  match self_df with
  | None => (Raises TypeError, None)
  | Some df =>
      match (typ <- getitem df "Type" ;;
             ranks <- ordinal_fit_transform type_categories typ ;;
             setitem df "Type" ranks) with
      | Err e => (Raises e, Some df)
      | Ok df1 =>
          match (failure <- getitem df1 "Failure Type" ;;
                 setitem df1 "type_of_failure" (label_fit_transform failure)) with
          | Err e => (Raises e, Some df1)
          | Ok df2 => (Done, Some df2)
          end
      end
  end.



(** A label column in which every class has the same number of rows. *)
Definition balanced (y : Series) : Prop :=
  forall c, In c (series_cells y) -> count_cells c y = max_class_count y.

(** A table whose label column holds one class only. *)
Definition single_class_df : DataFrame :=
  mkDataFrame 3
    [("Torque [Nm]", NumSeries (map int [10; 20; 30]%Z));
     ("type_of_failure", NumSeries (map int [1; 1; 1]%Z))].


(** A table without identifier columns that still has its [Target]. *)
Definition no_identifiers_df : DataFrame :=
  mkDataFrame 2
    [("Type", StrSeries ["L"; "M"]);
     ("Target", NumSeries (map int [0; 1]%Z))].

(** A table with the air temperature but no process temperature. *)
Definition air_only_df : DataFrame :=
  mkDataFrame 2
    [("Type", StrSeries ["L"; "M"]);
     ("Air temperature [K]", NumSeries (map tenths [2981; 2992]%Z))].
(** * Facts about the table operations *)

Unset Implicit Arguments.

Lemma bind_ok : forall (A B : Type) (r : result A) (k : A -> result B) (b : B),
    bind r k = Ok b -> exists a, r = Ok a /\ k a = Ok b.
Proof.
  intros A B [a | e] k b H; simpl in H; [eauto | discriminate].
Qed.

(** One step through a successful sequence of calls: names the value of the
    first call and keeps the rest of the sequence in [H]. *)
Ltac bind_inv H x Hx :=
  apply bind_ok in H; destruct H as [x [Hx H]].


Lemma lookup_none : forall name cols,
    lookup name cols = None <-> existsb (String.eqb name) (map fst cols) = false.
Proof.
  intros name cols. induction cols as [| [n s] r IH]; simpl.
  - tauto.
  - destruct (String.eqb name n); simpl; [split; discriminate | exact IH].
Qed.

Lemma lookup_some : forall name cols,
    existsb (String.eqb name) (map fst cols) = true -> exists s, lookup name cols = Some s.
Proof.
  intros name cols H. destruct (lookup name cols) as [s |] eqn:E; [eauto |].
  apply lookup_none in E. congruence.
Qed.

Lemma lookup_In : forall name cols s,
    lookup name cols = Some s -> In (name, s) cols.
Proof.
  intros name cols s. induction cols as [| [n s0] r IH]; simpl; [discriminate |].
  destruct (String.eqb name n) eqn:E.
  - apply String.eqb_eq in E. intros [= ->]. subst. now left.
  - intros Hl. right. now apply IH.
Qed.

Lemma getitem_ok_has : forall df name s,
    getitem df name = Ok s -> has_column df name = true.
Proof.
  unfold getitem, has_column, names. intros df name s H.
  destruct (lookup name (columns df)) eqn:E; [| discriminate].
  destruct (existsb (String.eqb name) (map fst (columns df))) eqn:Ex; [reflexivity |].
  apply lookup_none in Ex. congruence.
Qed.

Lemma getitem_err_has : forall df name e,
    getitem df name = Err e -> has_column df name = false /\ e = KeyError [name].
Proof.
  unfold getitem, has_column, names. intros df name e H.
  destruct (lookup name (columns df)) eqn:E; [discriminate |].
  apply lookup_none in E. inversion H. auto.
Qed.

Lemma aligned_lookup : forall df name s,
    aligned df = true -> lookup name (columns df) = Some s -> series_len s = nrows df.
Proof.
  unfold aligned. intros df name s Ha Hl. apply lookup_In in Hl.
  rewrite forallb_forall in Ha. specialize (Ha _ Hl). simpl in Ha.
  now apply Nat.eqb_eq.
Qed.

Lemma aligned_getitem : forall df name s,
    aligned df = true -> getitem df name = Ok s -> series_len s = nrows df.
Proof.
  unfold getitem. intros df name s Ha H.
  destruct (lookup name (columns df)) eqn:E; [| discriminate].
  inversion H; subst. eauto using aligned_lookup.
Qed.

(** *** [replace_col] and [setitem] *)

Lemma replace_col_names : forall name s cols,
    map fst (replace_col name s cols) = map fst cols.
Proof.
  intros name s cols. induction cols as [| [n s0] r IH]; simpl; [reflexivity |].
  destruct (String.eqb name n); simpl; [reflexivity | now rewrite IH].
Qed.

Lemma lookup_replace_same : forall name s cols,
    existsb (String.eqb name) (map fst cols) = true ->
    lookup name (replace_col name s cols) = Some s.
Proof.
  intros name s cols. induction cols as [| [n s0] r IH]; simpl; [discriminate |].
  destruct (String.eqb name n) eqn:E; simpl.
  - now rewrite E.
  - rewrite E. exact IH.
Qed.

Lemma lookup_replace_other : forall name other s cols,
    String.eqb other name = false ->
    lookup other (replace_col name s cols) = lookup other cols.
Proof.
  intros name other s cols Hne. induction cols as [| [n s0] r IH]; simpl; [reflexivity |].
  destruct (String.eqb name n) eqn:E; simpl.
  - apply String.eqb_eq in E. subst n. now rewrite Hne.
  - destruct (String.eqb other n); [reflexivity | exact IH].
Qed.

Lemma lookup_app_other : forall name other s cols,
    String.eqb other name = false ->
    lookup other (cols ++ [(name, s)]) = lookup other cols.
Proof.
  intros name other s cols Hne. induction cols as [| [n s0] r IH]; simpl.
  - now rewrite Hne.
  - destruct (String.eqb other n); [reflexivity | exact IH].
Qed.

Lemma lookup_app_new : forall name s cols,
    existsb (String.eqb name) (map fst cols) = false ->
    lookup name (cols ++ [(name, s)]) = Some s.
Proof.
  intros name s cols. induction cols as [| [n s0] r IH]; simpl.
  - now rewrite String.eqb_refl.
  - destruct (String.eqb name n); simpl; [discriminate | exact IH].
Qed.

Lemma setitem_nrows : forall df name s out,
    setitem df name s = Ok out -> nrows out = nrows df.
Proof.
  unfold setitem. intros df name s out H.
  destruct (series_len s =? nrows df); [| discriminate].
  destruct (has_column df name); inversion H; reflexivity.
Qed.

Lemma setitem_lookup_same : forall df name s out,
    setitem df name s = Ok out -> lookup name (columns out) = Some s.
Proof.
  unfold setitem. intros df name s out H.
  destruct (series_len s =? nrows df); [| discriminate].
  destruct (has_column df name) eqn:Hc; inversion H; subst; simpl.
  - now apply lookup_replace_same.
  - now apply lookup_app_new.
Qed.

Lemma setitem_lookup_other : forall df name other s out,
    setitem df name s = Ok out -> String.eqb other name = false ->
    lookup other (columns out) = lookup other (columns df).
Proof.
  unfold setitem. intros df name other s out H Hne.
  destruct (series_len s =? nrows df); [| discriminate].
  destruct (has_column df name) eqn:Hc; inversion H; subst; simpl.
  - now apply lookup_replace_other.
  - now apply lookup_app_other.
Qed.

Lemma replace_col_aligned : forall n name s cols,
    series_len s = n ->
    forallb (fun c => series_len (snd c) =? n) cols = true ->
    forallb (fun c => series_len (snd c) =? n) (replace_col name s cols) = true.
Proof.
  intros n name s cols Hs. induction cols as [| [m s0] r IH]; simpl; [reflexivity |].
  intros H. apply andb_true_iff in H. destruct H as [H1 H2].
  destruct (String.eqb name m); simpl.
  - rewrite H2, andb_true_r. now apply Nat.eqb_eq.
  - rewrite H1. simpl. now apply IH.
Qed.

Lemma setitem_aligned : forall df name s out,
    aligned df = true -> setitem df name s = Ok out -> aligned out = true.
Proof.
  unfold setitem, aligned. intros df name s out Ha H.
  destruct (series_len s =? nrows df) eqn:El; [| discriminate].
  apply Nat.eqb_eq in El.
  destruct (has_column df name); inversion H; subst; simpl.
  - now apply replace_col_aligned.
  - rewrite forallb_app, Ha. simpl. rewrite El, Nat.eqb_refl. reflexivity.
Qed.

Lemma setitem_succeeds : forall df name s,
    series_len s = nrows df -> exists out, setitem df name s = Ok out.
Proof.
  unfold setitem. intros df name s Hl. rewrite Hl, Nat.eqb_refl.
  destruct (has_column df name); eauto.
Qed.

(** *** [drop] and [rename] *)

Lemma drop_ok : forall df labels out,
    drop df labels = Ok out ->
    out = mkDataFrame (nrows df)
            (filter (fun c => negb (mem (fst c) labels)) (columns df)) /\
    forall l, In l labels -> has_column df l = true.
Proof.
  unfold drop. intros df labels out H.
  destruct (filter (fun l => negb (has_column df l)) labels) eqn:E; [| discriminate].
  inversion H; subst. split; [reflexivity |].
  intros l Hl. destruct (has_column df l) eqn:Hc; [reflexivity |].
  assert (Hin : In l (filter (fun l => negb (has_column df l)) labels)).
  { apply filter_In. split; [exact Hl | now rewrite Hc]. }
  rewrite E in Hin. destruct Hin.
Qed.

Lemma drop_err : forall df labels e,
    drop df labels = Err e ->
    exists l, In l labels /\ has_column df l = false.
Proof.
  unfold drop. intros df labels e H.
  destruct (filter (fun l => negb (has_column df l)) labels) as [| l r] eqn:E;
    [discriminate |].
  exists l. assert (Hin : In l (l :: r)) by now left.
  rewrite <- E in Hin. apply filter_In in Hin. destruct Hin as [Hin Hc].
  split; [exact Hin |]. now destruct (has_column df l).
Qed.

Lemma drop_succeeds : forall df labels,
    (forall l, In l labels -> has_column df l = true) ->
    drop df labels = Ok (mkDataFrame (nrows df)
            (filter (fun c => negb (mem (fst c) labels)) (columns df))).
Proof.
  unfold drop. intros df labels Hall.
  destruct (filter (fun l => negb (has_column df l)) labels) as [| l r] eqn:E;
    [reflexivity |].
  assert (Hin : In l (l :: r)) by now left.
  rewrite <- E in Hin. apply filter_In in Hin. destruct Hin as [Hin Hc].
  rewrite (Hall _ Hin) in Hc. discriminate.
Qed.

Lemma filter_aligned : forall n (f : string * Series -> bool) cols,
    forallb (fun c => series_len (snd c) =? n) cols = true ->
    forallb (fun c => series_len (snd c) =? n) (filter f cols) = true.
Proof.
  intros n f cols. induction cols as [| c r IH]; simpl; [reflexivity |].
  intros H. apply andb_true_iff in H. destruct H as [H1 H2].
  destruct (f c); simpl; [rewrite H1 |]; auto.
Qed.

Lemma drop_aligned : forall df labels out,
    aligned df = true -> drop df labels = Ok out ->
    nrows out = nrows df /\ aligned out = true.
Proof.
  intros df labels out Ha H. apply drop_ok in H. destruct H as [-> _].
  unfold aligned. simpl. split; [reflexivity |]. now apply filter_aligned.
Qed.

Lemma lookup_filter_dropped : forall name labels cols,
    mem name labels = true ->
    lookup name (filter (fun c => negb (mem (fst c) labels)) cols) = None.
Proof.
  intros name labels cols Hm. induction cols as [| [n s] r IH]; simpl; [reflexivity |].
  destruct (mem n labels) eqn:En; simpl; [exact IH |].
  destruct (String.eqb name n) eqn:E; [| exact IH].
  apply String.eqb_eq in E. congruence.
Qed.

Lemma lookup_filter_kept : forall name labels cols,
    mem name labels = false ->
    lookup name (filter (fun c => negb (mem (fst c) labels)) cols) = lookup name cols.
Proof.
  intros name labels cols Hm. induction cols as [| [n s] r IH]; simpl; [reflexivity |].
  destruct (String.eqb name n) eqn:E.
  - apply String.eqb_eq in E. subst n. rewrite Hm. simpl.
    now rewrite String.eqb_refl.
  - destruct (mem n labels); simpl; [exact IH | now rewrite E].
Qed.

Lemma rename_aligned : forall df old new,
    aligned df = true -> aligned (rename df old new) = true.
Proof.
  unfold aligned, rename. intros df old new. simpl.
  generalize (nrows df). intros n. induction (columns df) as [| c r IH]; simpl;
    [reflexivity |].
  intros H. apply andb_true_iff in H. destruct H as [H1 H2].
  rewrite (IH H2), andb_true_r. now destruct (String.eqb (fst c) old).
Qed.

Lemma rename_has_other : forall df old new name,
    String.eqb name old = false -> String.eqb name new = false ->
    has_column (rename df old new) name = has_column df name.
Proof.
  unfold has_column, names, rename. intros df old new name Ho Hn. simpl.
  induction (columns df) as [| [n s] r IH]; simpl; [reflexivity |].
  rewrite IH. f_equal.
  destruct (String.eqb n old) eqn:E; simpl; [| reflexivity].
  apply String.eqb_eq in E. subst n. now rewrite Ho, Hn.
Qed.

(** * Orders on column values *)

Lemma ascii_compare_trans : forall a b c : ascii,
    Ascii.compare a b = Lt -> Ascii.compare b c = Lt -> Ascii.compare a c = Lt.
Proof.
  unfold Ascii.compare. intros a b c H1 H2.
  rewrite N.compare_lt_iff in *. eapply N.lt_trans; eauto.
Qed.

Lemma ascii_compare_refl : forall a : ascii, Ascii.compare a a = Eq.
Proof. intros a. unfold Ascii.compare. apply N.compare_refl. Qed.

Lemma string_compare_refl : forall s : string, String.compare s s = Eq.
Proof.
  induction s as [| a s IH]; simpl; [reflexivity |].
  now rewrite ascii_compare_refl.
Qed.

Lemma string_compare_trans : forall x y z : string,
    String.compare x y = Lt -> String.compare y z = Lt -> String.compare x z = Lt.
Proof.
  induction x as [| a x IH]; intros [| b y] [| c z]; simpl; try discriminate; auto.
  destruct (Ascii.compare a b) eqn:Eab; try discriminate;
    destruct (Ascii.compare b c) eqn:Ebc; try discriminate; intros H1 H2.
  - apply Ascii.compare_eq_iff in Eab, Ebc. subst. rewrite ascii_compare_refl. eauto.
  - apply Ascii.compare_eq_iff in Eab. subst. now rewrite Ebc.
  - apply Ascii.compare_eq_iff in Ebc. subst. now rewrite Eab.
  - now rewrite (ascii_compare_trans _ _ _ Eab Ebc).
Qed.

#[export] Instance string_order : TotalOrder String.compare.
Proof.
  constructor.
  - intros x y. split; [apply String.compare_eq_iff |].
    intros ->. apply string_compare_refl.
  - apply String.compare_antisym.
  - apply string_compare_trans.
Qed.

#[export] Instance Qc_order : TotalOrder Qccompare.
Proof.
  constructor.
  - intros x y. symmetry. apply Qceq_alt.
  - intros x y. unfold Qccompare. now rewrite <- Qcompare_antisym.
  - intros x y z H1 H2. apply Qclt_alt. apply Qclt_alt in H1, H2.
    eapply Qclt_trans; eauto.
Qed.

Section ClassFacts.
Context {A : Type} (cmp : A -> A -> comparison) `{TotalOrder A cmp}.

Lemma cmp_refl : forall x, cmp x x = Eq.
Proof. intros x. now apply cmp_eq. Qed.

Lemma is_eq_true : forall x y, is_eq cmp x y = true <-> x = y.
Proof.
  intros x y. unfold is_eq. rewrite <- cmp_eq.
  destruct (cmp x y); split; congruence.
Qed.

Lemma is_eq_false : forall x y, is_eq cmp x y = false <-> x <> y.
Proof.
  intros x y. rewrite <- is_eq_true. destruct (is_eq cmp x y); split; congruence.
Qed.

Lemma is_eq_refl : forall x, is_eq cmp x x = true.
Proof. intros x. now apply is_eq_true. Qed.

Lemma cmp_gt_lt : forall x y, cmp x y = Gt -> cmp y x = Lt.
Proof. intros x y Hg. rewrite cmp_antisym, Hg. reflexivity. Qed.

Lemma cmp_lt_neq : forall x y, cmp x y = Lt -> x <> y.
Proof. intros x y Hl ->. rewrite cmp_refl in Hl. discriminate. Qed.

(** *** [insert] and [unique_sorted] *)

Lemma In_insert : forall x z l, In z (insert cmp x l) <-> z = x \/ In z l.
Proof.
  intros x z l. induction l as [| y r IH]; simpl.
  - intuition.
  - destruct (cmp x y) eqn:E; simpl.
    + apply cmp_eq in E. subst. intuition.
    + intuition.
    + rewrite IH. intuition.
Qed.

Lemma increasing_insert : forall x l,
    increasing cmp l -> increasing cmp (insert cmp x l).
Proof.
  intros x l. induction l as [| y r IH]; simpl.
  - auto.
  - intros [Hy Hr]. destruct (cmp x y) eqn:E; simpl.
    + auto.
    + repeat split; auto. constructor; [exact E |].
      eapply Forall_impl; [| exact Hy]. intros a Ha. simpl in Ha.
      eapply cmp_trans; eauto.
    + split; [| auto]. apply Forall_forall. intros a Ha.
      apply In_insert in Ha. destruct Ha as [-> | Ha].
      * now apply cmp_gt_lt.
      * rewrite Forall_forall in Hy. auto.
Qed.

Lemma increasing_unique_sorted : forall v, increasing cmp (unique_sorted cmp v).
Proof.
  induction v as [| x v IH]; simpl; [exact I |]. now apply increasing_insert.
Qed.

Lemma In_unique_sorted : forall v z, In z (unique_sorted cmp v) <-> In z v.
Proof.
  induction v as [| x v IH]; intros z; simpl; [tauto |].
  rewrite In_insert, IH. intuition.
Qed.

Lemma increasing_NoDup : forall l, increasing cmp l -> NoDup l.
Proof.
  induction l as [| x r IH]; simpl; [constructor |].
  intros [Hx Hr]. constructor; [| auto].
  intros Hin. rewrite Forall_forall in Hx. specialize (Hx _ Hin).
  rewrite cmp_refl in Hx. discriminate.
Qed.

(** *** [index_of] on increasing lists *)

Lemma index_of_nth : forall x l, In x l -> nth_error l (index_of cmp x l) = Some x.
Proof.
  intros x l. induction l as [| y r IH]; simpl; [tauto |].
  intros Hin. destruct (is_eq cmp x y) eqn:E.
  - apply is_eq_true in E. now subst.
  - apply is_eq_false in E. destruct Hin as [-> | Hin]; [congruence | auto].
Qed.

Lemma index_of_bound : forall x l, In x l -> index_of cmp x l < length l.
Proof.
  intros x l Hin. apply nth_error_Some. rewrite index_of_nth by assumption.
  discriminate.
Qed.

Lemma index_of_eq_iff : forall x y l, In x l -> In y l ->
    (index_of cmp x l = index_of cmp y l <-> x = y).
Proof.
  intros x y l Hx Hy. split; [| now intros ->].
  intros He. apply index_of_nth in Hx, Hy. rewrite He in Hx. congruence.
Qed.

Lemma index_of_lt_iff : forall x y l, increasing cmp l -> In x l -> In y l ->
    (index_of cmp x l < index_of cmp y l <-> cmp x y = Lt).
Proof.
  intros x y l. induction l as [| a r IH]; simpl; [tauto |].
  intros [Ha Hr] Hx Hy. rewrite Forall_forall in Ha.
  destruct (is_eq cmp x a) eqn:Ex; destruct (is_eq cmp y a) eqn:Ey.
  - apply is_eq_true in Ex, Ey. subst. rewrite cmp_refl. split; [lia | discriminate].
  - apply is_eq_true in Ex. apply is_eq_false in Ey. subst.
    destruct Hy as [-> | Hy]; [congruence |]. split; [auto | lia].
  - apply is_eq_false in Ex. apply is_eq_true in Ey. subst.
    destruct Hx as [-> | Hx]; [congruence |]. specialize (Ha _ Hx).
    split; [lia |]. intros Hl. rewrite cmp_antisym, Ha in Hl. discriminate.
  - apply is_eq_false in Ex, Ey.
    destruct Hx as [-> | Hx]; [congruence |].
    destruct Hy as [-> | Hy]; [congruence |].
    rewrite <- IH by assumption. lia.
Qed.
End ClassFacts.

Lemma Qc_of_nat_inj : forall n m, Qc_of_nat n = Qc_of_nat m -> n = m.
Proof.
  unfold Qc_of_nat. intros n m H. apply Q2Qc_eq_iff in H.
  unfold Qeq in H. simpl in H. lia.
Qed.

(** * Facts about multi-column selection and assignment *)

Lemma getitems_ok : forall df labels X,
    getitems df labels = Ok X ->
    Forall2 (fun l s => lookup l (columns df) = Some s) labels X.
Proof.
  unfold getitems. intros df labels X H.
  destruct (filter (fun l => negb (has_column df l)) labels) eqn:E; [| discriminate].
  inversion H; subst X. clear H.
  assert (Hall : forall l, In l labels -> has_column df l = true).
  { intros l Hl. destruct (has_column df l) eqn:Hc; [reflexivity |].
    assert (Hin : In l (filter (fun l => negb (has_column df l)) labels)).
    { apply filter_In. split; [exact Hl | now rewrite Hc]. }
    rewrite E in Hin. destruct Hin. }
  clear E. induction labels as [| l r IH]; simpl; [constructor |].
  destruct (lookup_some l (columns df)) as [s Hs].
  { apply Hall. now left. }
  rewrite Hs. simpl. constructor; [exact Hs |].
  apply IH. intros l' Hl'. apply Hall. now right.
Qed.

Lemma as_float_columns_ok : forall cols X,
    as_float_columns cols = Ok X -> cols = map NumSeries X.
Proof.
  induction cols as [| [v | v] r IH]; simpl; intros X H.
  - inversion H. reflexivity.
  - bind_inv H vs Hvs. inversion H; subst X.
    simpl. f_equal. now apply IH.
  - discriminate.
Qed.

Lemma setitems_frame : forall labels values df out,
    setitems df labels values = Ok out ->
    nrows out = nrows df /\
    (forall name, ~ In name labels -> lookup name (columns out) = lookup name (columns df)) /\
    ((forall l, In l labels -> has_column df l = true) -> names out = names df).
Proof.
  induction labels as [| l ls IH]; intros values df out H.
  - simpl in H. inversion H. auto.
  - destruct values as [| v vs]; simpl in H.
    + inversion H. auto.
    + bind_inv H df1 H1.
      destruct (IH _ _ _ H) as [Hn [Hl Hnames]].
      split; [| split].
      * rewrite Hn. eapply setitem_nrows; eauto.
      * intros name Hni. rewrite Hl by (intros Hc; apply Hni; now right).
        eapply setitem_lookup_other; eauto.
        apply String.eqb_neq. intros ->. apply Hni. now left.
      * intros Hall.
        assert (Hn1 : names df1 = names df).
        { unfold setitem in H1.
          destruct (series_len v =? nrows df); [| discriminate].
          rewrite (Hall l (or_introl eq_refl)) in H1. inversion H1.
          unfold names. simpl. apply replace_col_names. }
        rewrite Hnames; [exact Hn1 |].
        intros l' Hl'. unfold has_column. rewrite Hn1.
        apply Hall. now right.
Qed.


(** * Facts about minimum, maximum and the min-max transform *)













(** * Facts about positional selection *)

Lemma take_list_app : forall (A : Type) (v : list A) idx1 idx2,
    take_list v (idx1 ++ idx2) = take_list v idx1 ++ take_list v idx2.
Proof. intros A v idx1 idx2. unfold take_list. apply flat_map_app. Qed.

Lemma take_list_seq_from : forall (A : Type) (pre v : list A),
    take_list (pre ++ v) (seq (length pre) (length v)) = v.
Proof.
  intros A pre v. revert pre. induction v as [| x v IH]; intros pre; [reflexivity |].
  simpl. rewrite nth_error_app2, Nat.sub_diag by lia. simpl. f_equal.
  specialize (IH (pre ++ [x])). rewrite <- app_assoc, length_app in IH. simpl in IH.
  rewrite Nat.add_1_r in IH. exact IH.
Qed.

Lemma take_list_seq : forall (A : Type) (v : list A),
    take_list v (seq 0 (length v)) = v.
Proof. intros A v. exact (take_list_seq_from A [] v). Qed.

Lemma take_list_nth : forall (A : Type) (v : list A) idx,
    (forall i, In i idx -> i < length v) ->
    length (take_list v idx) = length idx /\
    forall j i, nth_error idx j = Some i ->
                nth_error (take_list v idx) j = nth_error v i.
Proof.
  intros A v idx. induction idx as [| i0 idx IH]; intros Hr.
  - split; [reflexivity |]. intros [| j] i Hj; discriminate.
  - destruct IH as [IHl IHn]; [intros i Hi; apply Hr; now right |].
    assert (H0 : i0 < length v) by (apply Hr; now left).
    apply nth_error_Some in H0. simpl.
    destruct (nth_error v i0) as [x |] eqn:Ex; [| congruence].
    simpl. split; [now rewrite IHl |].
    intros [| j] i Hj; simpl in *.
    + inversion Hj; subst. now rewrite Ex.
    + now apply IHn.
Qed.

Lemma take_list_const : forall (A : Type) (v : list A) idx c,
    (forall i, In i idx -> nth_error v i = Some c) ->
    take_list v idx = repeat c (length idx).
Proof.
  intros A v idx c. induction idx as [| i0 idx IH]; intros Hc; [reflexivity |].
  simpl. rewrite (Hc i0) by now left. simpl. f_equal.
  apply IH. intros i Hi. apply Hc. now right.
Qed.

Lemma take_list_map : forall (A B : Type) (f : A -> B) (v : list A) idx,
    take_list (map f v) idx = map f (take_list v idx).
Proof.
  intros A B f v idx. induction idx as [| i idx IH]; [reflexivity |].
  simpl. rewrite nth_error_map, map_app, IH.
  now destruct (nth_error v i).
Qed.

Lemma series_cells_take : forall s idx,
    series_cells (take s idx) = take_list (series_cells s) idx.
Proof.
  intros [v | v] idx; simpl; now rewrite take_list_map.
Qed.

Lemma series_len_cells : forall s, length (series_cells s) = series_len s.
Proof. intros [v | v]; simpl; apply length_map. Qed.

Lemma take_in_range : forall s idx,
    (forall i, In i idx -> i < series_len s) ->
    series_len (take s idx) = length idx /\
    forall j i, nth_error idx j = Some i -> iloc (take s idx) j = iloc s i.
Proof.
  intros s idx Hr. unfold iloc. rewrite <- series_len_cells, series_cells_take.
  apply take_list_nth. intros i Hi. rewrite series_len_cells. auto.
Qed.

(** * Facts about the bootstrap draws *)

Section ResampleFacts.
Context {A : Type} (cmp : A -> A -> comparison) `{TotalOrder A cmp}.
Context {G : Type} `{RandomSource G}.

Lemma flatnonzero_eq_spec : forall c y i j,
    In j (flatnonzero_eq cmp c y i) -> i <= j /\ nth_error y (j - i) = Some c.
Proof.
  intros c y. induction y as [| x r IH]; intros i j Hin; simpl in Hin; [tauto |].
  destruct (is_eq cmp x c) eqn:E.
  - destruct Hin as [<- | Hin].
    + rewrite Nat.sub_diag. simpl. apply (is_eq_true cmp) in E. subst. auto.
    + apply IH in Hin. destruct Hin as [Hle Hn]. split; [lia |].
      replace (j - i) with (S (j - S i)) by lia. exact Hn.
  - apply IH in Hin. destruct Hin as [Hle Hn]. split; [lia |].
    replace (j - i) with (S (j - S i)) by lia. exact Hn.
Qed.

Lemma flatnonzero_eq_length : forall c y i,
    length (flatnonzero_eq cmp c y i) = count cmp c y.
Proof.
  intros c y. unfold count. induction y as [| x r IH]; intros i; simpl; [reflexivity |].
  destruct (is_eq cmp x c); simpl; now rewrite IH.
Qed.

Lemma count_pos : forall c y, In c y -> 0 < count cmp c y.
Proof.
  intros c y. unfold count. induction y as [| x r IH]; simpl; [tauto |].
  intros [-> | Hin].
  - rewrite (is_eq_refl cmp). simpl. lia.
  - destruct (is_eq cmp x c); simpl; [lia | auto].
Qed.

Lemma choice_spec : forall pool size g,
    pool <> [] ->
    length (fst (choice g pool size)) = size /\
    forall j, In j (fst (choice g pool size)) -> In j pool.
Proof.
  intros pool size. induction size as [| k IH]; intros g Hne; simpl.
  - split; [reflexivity | tauto].
  - pose proof (@randint_lt G _ g (length pool)) as Hlt.
    destruct (randint g (length pool)) as [r g1]. simpl in Hlt.
    destruct (IH g1 Hne) as [IHl IHin].
    destruct (choice g1 pool k) as [rest g2]. simpl in *.
    split; [now rewrite IHl |].
    intros j [<- | Hj]; [| auto].
    apply nth_In. apply Hlt. destruct pool; [congruence | simpl; lia].
Qed.

Lemma choice_zero : forall pool g, choice g pool 0 = ([], g).
Proof. reflexivity. Qed.

Lemma bootstrap_spec : forall y strategy g,
    (forall c n, In (c, n) strategy -> In c y) ->
    (forall j, In j (fst (bootstrap cmp y strategy g)) -> j < length y) /\
    take_list y (fst (bootstrap cmp y strategy g)) = extra_labels strategy.
Proof.
  intros y strategy. induction strategy as [| [c n] r IH]; intros g Hkeys; simpl.
  - split; [tauto | reflexivity].
  - assert (Hpool : flatnonzero_eq cmp c y 0 <> []).
    { intros Hz. pose proof (flatnonzero_eq_length c y 0) as Hl.
      rewrite Hz in Hl. simpl in Hl.
      pose proof (count_pos c y (Hkeys c n (or_introl eq_refl))). lia. }
    destruct (choice_spec _ n g Hpool) as [Hlen Hin].
    destruct (choice g (flatnonzero_eq cmp c y 0) n) as [picked g1]. simpl in *.
    destruct (IH g1) as [IHr IHt].
    { intros c' n' Hc'. eapply Hkeys. right. exact Hc'. }
    destruct (bootstrap cmp y r g1) as [rest g2]. simpl in *.
    assert (Hpicked : forall j, In j picked -> nth_error y j = Some c).
    { intros j Hj. apply Hin, flatnonzero_eq_spec in Hj.
      destruct Hj as [_ Hj]. now rewrite Nat.sub_0_r in Hj. }
    split.
    + intros j Hj. apply in_app_or in Hj. destruct Hj as [Hj | Hj]; [| auto].
      apply nth_error_Some. rewrite (Hpicked j Hj). discriminate.
    + rewrite take_list_app, IHt, (take_list_const _ _ _ c Hpicked), Hlen.
      reflexivity.
Qed.
End ResampleFacts.

(** * Facts about class counts and the sampling strategy *)

Lemma max_list_ub : forall l n, In n l -> n <= fold_right Nat.max 0 l.
Proof.
  induction l as [| m l IH]; simpl; [tauto |].
  intros n [-> | Hin]; [lia |]. specialize (IH n Hin). lia.
Qed.

Lemma max_list_attained : forall l, l <> [] -> In (fold_right Nat.max 0 l) l.
Proof.
  induction l as [| m l IH]; [congruence |]. intros _. simpl.
  destruct l as [| m' l'].
  - simpl. left. lia.
  - destruct (Nat.max_spec m (fold_right Nat.max 0 (m' :: l'))) as [[_ ->] | [_ ->]].
    + right. apply IH. discriminate.
    + now left.
Qed.

Lemma max_list_same : forall l1 l2,
    (forall n, In n l1 <-> In n l2) ->
    fold_right Nat.max 0 l1 = fold_right Nat.max 0 l2.
Proof.
  intros l1 l2 Hiff. destruct l1 as [| a l1]; destruct l2 as [| b l2].
  - reflexivity.
  - exfalso. apply (proj2 (Hiff b)). now left.
  - exfalso. apply (proj1 (Hiff a)). now left.
  - apply Nat.le_antisymm; apply max_list_ub.
    + apply Hiff. apply max_list_attained. discriminate.
    + apply Hiff. apply max_list_attained. discriminate.
Qed.

Section StrategyFacts.
Context {A : Type} (cmp : A -> A -> comparison) `{TotalOrder A cmp}.

Lemma count_app : forall c a b,
    count cmp c (a ++ b) = count cmp c a + count cmp c b.
Proof. intros c a b. unfold count. now rewrite filter_app, length_app. Qed.

Lemma count_repeat_same : forall c n, count cmp c (repeat c n) = n.
Proof.
  intros c n. unfold count. induction n as [| n IH]; simpl; [reflexivity |].
  rewrite (is_eq_refl cmp). simpl. now rewrite IH.
Qed.

Lemma count_repeat_other : forall c c' n, c' <> c -> count cmp c (repeat c' n) = 0.
Proof.
  intros c c' n Hne. unfold count. induction n as [| n IH]; simpl; [reflexivity |].
  apply (is_eq_false cmp) in Hne. now rewrite Hne.
Qed.

Lemma count_extra_labels : forall (f : A -> nat) l c,
    NoDup l ->
    count cmp c (extra_labels (map (fun x => (x, f x)) l)) =
    if existsb (fun x => is_eq cmp x c) l then f c else 0.
Proof.
  intros f l c. unfold extra_labels.
  induction l as [| x l IH]; intros Hnd; simpl; [reflexivity |].
  inversion Hnd as [| ? ? Hnotin Hnd']; subst.
  rewrite count_app, (IH Hnd'). destruct (is_eq cmp x c) eqn:E; simpl.
  - apply (is_eq_true cmp) in E. subst x. rewrite count_repeat_same.
    destruct (existsb (fun x => is_eq cmp x c) l) eqn:Ex; [| lia].
    exfalso. apply Hnotin. apply existsb_exists in Ex.
    destruct Ex as [z [Hz Hzc]]. apply (is_eq_true cmp) in Hzc. now subst.
  - apply (is_eq_false cmp) in E. now rewrite count_repeat_other.
Qed.

Lemma target_stats_find : forall y,
    y <> [] ->
    exists class_majority,
      find (fun p => snd p =? n_sample_majority (target_stats cmp y))
           (target_stats cmp y)
      = Some (class_majority, n_sample_majority (target_stats cmp y)) /\
      In class_majority y /\
      count cmp class_majority y = n_sample_majority (target_stats cmp y).
Proof.
  intros y Hne. set (stats := target_stats cmp y).
  set (n_max := n_sample_majority stats).
  assert (Hin : In n_max (map snd stats)).
  { apply max_list_attained. unfold stats, target_stats.
    destruct y as [| a r]; [congruence |].
    intros Hz. apply map_eq_nil in Hz. apply map_eq_nil in Hz.
    assert (Ha : In a (unique_sorted cmp (a :: r)))
      by (apply (In_unique_sorted cmp); now left).
    rewrite Hz in Ha. destruct Ha. }
  apply in_map_iff in Hin. destruct Hin as [[c n] [Hn Hc]]. simpl in Hn. subst n.
  destruct (find (fun p => snd p =? n_max) stats) as [[maj m] |] eqn:Ef.
  - apply find_some in Ef. destruct Ef as [Hmaj Hm]. simpl in Hm.
    apply Nat.eqb_eq in Hm. subst m. exists maj. split; [reflexivity |].
    unfold stats, target_stats in Hmaj. apply in_map_iff in Hmaj.
    destruct Hmaj as [c' [Heq Hc']]. injection Heq as Hc1 Hc2. subst c'.
    split; [now apply (In_unique_sorted cmp) | exact Hc2].
  - exfalso. apply (find_none _ _ Ef) in Hc. simpl in Hc.
    now rewrite Nat.eqb_refl in Hc.
Qed.

Lemma count_le_majority : forall y c,
    In c y -> count cmp c y <= n_sample_majority (target_stats cmp y).
Proof.
  intros y c Hc. apply max_list_ub. unfold target_stats.
  rewrite map_map. simpl. apply in_map_iff. exists c. split; [reflexivity |].
  now apply (In_unique_sorted cmp).
Qed.

Lemma strategy_as_map : forall y class_majority,
    find (fun p => snd p =? n_sample_majority (target_stats cmp y))
         (target_stats cmp y)
    = Some (class_majority, n_sample_majority (target_stats cmp y)) ->
    sampling_strategy_not_majority cmp (target_stats cmp y) =
    map (fun c => (c, n_sample_majority (target_stats cmp y) - count cmp c y))
        (filter (fun c => negb (is_eq cmp c class_majority)) (unique_sorted cmp y)).
Proof.
  intros y maj Hf. unfold sampling_strategy_not_majority. rewrite Hf.
  set (n_max := n_sample_majority (target_stats cmp y)).
  unfold target_stats. generalize (unique_sorted cmp y). intros l.
  induction l as [| c l IH]; simpl; [reflexivity |].
  destruct (is_eq cmp c maj); simpl; now rewrite IH.
Qed.

(** After resampling every class has as many rows as the majority class. *)
Lemma balanced_counts : forall y c,
    In c y ->
    count cmp c
      (y ++ extra_labels (sampling_strategy_not_majority cmp (target_stats cmp y)))
    = n_sample_majority (target_stats cmp y).
Proof.
  intros y c Hc.
  destruct (target_stats_find y) as [maj [Hf [Hmaj Hcount]]].
  { intros ->. destruct Hc. }
  rewrite (strategy_as_map y maj Hf), count_app.
  rewrite count_extra_labels
    by (apply NoDup_filter, (increasing_NoDup cmp), increasing_unique_sorted; auto).
  pose proof (count_le_majority y c Hc) as Hle.
  destruct (existsb _ _) eqn:Ex; [lia |].
  assert (Hcm : c = maj).
  { destruct (is_eq cmp c maj) eqn:E; [now apply (is_eq_true cmp) |].
    exfalso. rewrite <- not_true_iff_false in Ex. apply Ex.
    apply existsb_exists. exists c. split; [| apply (is_eq_refl cmp)].
    apply filter_In. split; [now apply (In_unique_sorted cmp) | now rewrite E]. }
  subst c. lia.
Qed.

Lemma strategy_keys : forall y c n,
    In (c, n) (sampling_strategy_not_majority cmp (target_stats cmp y)) -> In c y.
Proof.
  intros y c n. unfold sampling_strategy_not_majority.
  destruct (find _ _) as [[maj m] |]; [| simpl; tauto].
  intros Hin. apply in_map_iff in Hin. destruct Hin as [[c' n'] [Heq Hin]].
  simpl in Heq. inversion Heq; subst. apply filter_In in Hin.
  destruct Hin as [Hin _]. unfold target_stats in Hin.
  apply in_map_iff in Hin. destruct Hin as [c'' [Heq' Hin]].
  inversion Heq'; subst. now apply (In_unique_sorted cmp).
Qed.

Lemma two_classes : forall y a b,
    In a y -> In b y -> a <> b -> 2 <= length (unique_sorted cmp y).
Proof.
  intros y a b Ha Hb Hne.
  apply (In_unique_sorted cmp) in Ha, Hb.
  destruct (unique_sorted cmp y) as [| x [| x' l]]; simpl in *.
  - destruct Ha.
  - destruct Ha as [<- | []]. destruct Hb as [<- | []]. congruence.
  - lia.
Qed.
End StrategyFacts.

(** * Facts about [fit_resample] *)

Section ResampleIndices.
Context {A : Type} (cmp : A -> A -> comparison) `{TotalOrder A cmp}.
Context {G : Type} `{RandomSource G}.

Lemma resample_indices_inv : forall y g idx g',
    resample_indices cmp y g = (Ok idx, g') ->
    2 <= length (unique_sorted cmp y) /\
    exists extra,
      idx = seq 0 (length y) ++ extra /\
      (forall j, In j extra -> j < length y) /\
      take_list y idx =
      y ++ extra_labels (sampling_strategy_not_majority cmp (target_stats cmp y)).
Proof.
  intros y g idx g' Hr. unfold resample_indices in Hr.
  destruct (length (unique_sorted cmp y) <=? 1) eqn:El; [discriminate |].
  apply Nat.leb_gt in El. split; [lia |].
  destruct (bootstrap_spec cmp y
              (sampling_strategy_not_majority cmp (target_stats cmp y)) g
              (strategy_keys cmp y)) as [Hrange Htake].
  destruct (bootstrap cmp y _ g) as [extra g1]. simpl in *.
  inversion Hr; subst. exists extra. split; [reflexivity |].
  split; [exact Hrange |].
  now rewrite take_list_app, take_list_seq, Htake.
Qed.

Lemma resample_indices_succeeds : forall y g,
    2 <= length (unique_sorted cmp y) ->
    exists idx g', resample_indices cmp y g = (Ok idx, g').
Proof.
  intros y g Hl. unfold resample_indices.
  destruct (length (unique_sorted cmp y) <=? 1) eqn:El.
  - apply Nat.leb_le in El. lia.
  - destruct (bootstrap cmp y _ g) as [extra g1]. eauto.
Qed.

Lemma resample_indices_err : forall y g e g',
    resample_indices cmp y g = (Err e, g') -> e = ValueError /\ g' = g.
Proof.
  intros y g e g' Hr. unfold resample_indices in Hr.
  destruct (length (unique_sorted cmp y) <=? 1).
  - inversion Hr. auto.
  - destruct (bootstrap cmp y _ g). discriminate.
Qed.
End ResampleIndices.

Lemma cell_eqb_num : forall c x,
    cell_eqb (CNum c) (CNum x) = is_eq Qccompare x c.
Proof.
  intros c x. simpl. unfold is_eq.
  rewrite (cmp_antisym (cmp := Qccompare) x c).
  now destruct (c ?= x)%Qc.
Qed.

Lemma cell_eqb_str : forall c x,
    cell_eqb (CStr c) (CStr x) = is_eq String.compare x c.
Proof.
  intros c x. simpl. destruct (is_eq String.compare x c) eqn:E.
  - apply (is_eq_true String.compare) in E. subst. apply String.eqb_refl.
  - apply (is_eq_false String.compare) in E. apply String.eqb_neq. congruence.
Qed.

Lemma count_cells_num : forall c v,
    count_cells (CNum c) (NumSeries v) = count Qccompare c v.
Proof.
  intros c v. unfold count_cells, count. cbn [series_cells].
  induction v as [| x v IH]; [reflexivity |]. cbn [map filter].
  rewrite cell_eqb_num. destruct (is_eq Qccompare x c); cbn [length]; now rewrite IH.
Qed.

Lemma count_cells_str : forall c v,
    count_cells (CStr c) (StrSeries v) = count String.compare c v.
Proof.
  intros c v. unfold count_cells, count. cbn [series_cells].
  induction v as [| x v IH]; [reflexivity |]. cbn [map filter].
  rewrite cell_eqb_str. destruct (is_eq String.compare x c); cbn [length]; now rewrite IH.
Qed.

Lemma majority_as_max : forall (A : Type) (cmp : A -> A -> comparison),
    TotalOrder cmp ->
    forall v, n_sample_majority (target_stats cmp v)
              = fold_right Nat.max 0 (map (fun c => count cmp c v) v).
Proof.
  intros A cmp Hord v. unfold n_sample_majority, target_stats.
  rewrite map_map. simpl. apply max_list_same. intros n.
  rewrite !in_map_iff. split; intros [c [Hc Hin]]; exists c; split; auto;
    now apply (In_unique_sorted cmp).
Qed.

Lemma max_class_count_num : forall v,
    max_class_count (NumSeries v) = n_sample_majority (target_stats Qccompare v).
Proof.
  intros v. rewrite (majority_as_max _ Qccompare Qc_order). unfold max_class_count.
  simpl. rewrite map_map. f_equal. apply map_ext. intros c. apply count_cells_num.
Qed.

Lemma max_class_count_str : forall v,
    max_class_count (StrSeries v) = n_sample_majority (target_stats String.compare v).
Proof.
  intros v. rewrite (majority_as_max _ String.compare string_order).
  unfold max_class_count.
  simpl. rewrite map_map. f_equal. apply map_ext. intros c. apply count_cells_str.
Qed.

(** Every class of [y] has [max_class_count y] rows in [resampled_labels y]. *)
Lemma resampled_labels_balanced : forall y c,
    In c (series_cells y) ->
    count_cells c (resampled_labels y) = max_class_count y.
Proof.
  intros [v | v] c Hc; simpl in Hc; apply in_map_iff in Hc;
    destruct Hc as [x [<- Hx]]; simpl resampled_labels.
  - rewrite count_cells_num, max_class_count_num.
    now apply (balanced_counts Qccompare).
  - rewrite count_cells_str, max_class_count_str.
    now apply (balanced_counts String.compare).
Qed.

Lemma resampled_labels_length : forall y,
    series_len y <= series_len (resampled_labels y).
Proof.
  intros [v | v]; simpl; rewrite length_app; lia.
Qed.

Section FitResample.
Context {G : Type} `{RandomSource G}.

Lemma fit_resample_inv : forall X y g Xr yr g',
    fit_resample X y g = (Ok (Xr, yr), g') ->
    classification_target y = true /\
    series_len y = nrows X /\
    nrows X <> 0 /\
    exists extra,
      Xr = take_rows X (seq 0 (nrows X) ++ extra) /\
      yr = take y (seq 0 (nrows X) ++ extra) /\
      (forall j, In j extra -> j < nrows X) /\
      yr = resampled_labels y.
Proof.
  intros X y g Xr yr g' Hf. unfold fit_resample in Hf.
  destruct (classification_target y); simpl in Hf; [| discriminate].
  destruct (series_len y =? nrows X) eqn:El; simpl in Hf; [| discriminate].
  apply Nat.eqb_eq in El.
  destruct (nrows X =? 0) eqn:En; [discriminate |]. apply Nat.eqb_neq in En.
  repeat split; try assumption.
  destruct y as [v | v]; simpl in El.
  - destruct (resample_indices Qccompare v g) as [[idx | e] g1] eqn:Er;
      [| discriminate].
    apply (resample_indices_inv Qccompare) in Er.
    destruct Er as [_ [extra [Hidx [Hrange Htake]]]].
    inversion Hf; subst. exists extra. rewrite <- El.
    repeat split; auto. simpl. now rewrite Htake.
  - destruct (resample_indices String.compare v g) as [[idx | e] g1] eqn:Er;
      [| discriminate].
    apply (resample_indices_inv String.compare) in Er.
    destruct Er as [_ [extra [Hidx [Hrange Htake]]]].
    inversion Hf; subst. exists extra. rewrite <- El.
    repeat split; auto. simpl. now rewrite Htake.
Qed.

Lemma fit_resample_succeeds : forall X y g a b,
    classification_target y = true ->
    series_len y = nrows X ->
    In a (series_cells y) -> In b (series_cells y) -> a <> b ->
    exists Xr yr g', fit_resample X y g = (Ok (Xr, yr), g').
Proof.
  intros X y g a b Hct Hl Ha Hb Hne. unfold fit_resample.
  rewrite Hct, Hl, Nat.eqb_refl. simpl.
  assert (Hn : nrows X <> 0).
  { rewrite <- Hl, <- series_len_cells. destruct (series_cells y); [destruct Ha |].
    discriminate. }
  apply Nat.eqb_neq in Hn. rewrite Hn.
  destruct y as [v | v]; simpl in Ha, Hb;
    apply in_map_iff in Ha; apply in_map_iff in Hb;
    destruct Ha as [a' [<- Ha]]; destruct Hb as [b' [<- Hb]].
  - destruct (resample_indices_succeeds Qccompare v g) as [idx [g' Hr]].
    { apply (two_classes Qccompare v a' b'); auto. congruence. }
    rewrite Hr. eauto.
  - destruct (resample_indices_succeeds String.compare v g) as [idx [g' Hr]].
    { apply (two_classes String.compare v a' b'); auto. congruence. }
    rewrite Hr. eauto.
Qed.
End FitResample.

(** * Facts about [oversample_data] *)

Lemma lookup_map_take : forall idx name cols,
    lookup name (map (fun c => (fst c, take (snd c) idx)) cols)
    = option_map (fun s => take s idx) (lookup name cols).
Proof.
  intros idx name cols. induction cols as [| [n s] r IH]; simpl; [reflexivity |].
  now destruct (String.eqb name n).
Qed.

Lemma lookup_app : forall name a b,
    lookup name (a ++ b) =
    match lookup name a with Some s => Some s | None => lookup name b end.
Proof.
  intros name a b. induction a as [| [n s] r IH]; simpl; [reflexivity |].
  now destruct (String.eqb name n).
Qed.

Section OversampleFacts.
Context {G : Type} `{RandomSource G}.

Lemma oversample_data_inv : forall df g out g',
    oversample_data df g = (Ok out, g') ->
    exists y extra,
      getitem df label = Ok y /\
      classification_target y = true /\
      series_len y = nrows df /\
      nrows df <> 0 /\
      (forall j, In j extra -> j < nrows df) /\
      take y (seq 0 (nrows df) ++ extra) = resampled_labels y /\
      out = mkDataFrame (nrows df + length extra)
              (map (fun c => (fst c, take (snd c) (seq 0 (nrows df) ++ extra)))
                   (feature_columns df)
               ++ [(label, resampled_labels y)]).
Proof.
  intros df g out g' Ho. unfold oversample_data in Ho.
  destruct (drop df ["type_of_failure"]) as [X | e] eqn:Ed; [| discriminate].
  apply drop_ok in Ed. destruct Ed as [HX _].
  destruct (getitem df "type_of_failure") as [y | e] eqn:Ey; [| discriminate].
  destruct (fit_resample X y g) as [[[Xr yr] | e] g1] eqn:Ef; [| discriminate].
  apply fit_resample_inv in Ef.
  destruct Ef as [Hct [Hl [Hn [extra [HXr [Hyr [Hrange Hlab]]]]]]].
  assert (Hrows : nrows X = nrows df) by (rewrite HX; reflexivity).
  rewrite Hrows in *. inversion Ho as [[Hout Hg]]. clear Ho.
  exists y, extra. repeat split; try assumption.
  - rewrite <- Hyr. exact Hlab.
  - rewrite Hlab, HXr, HX. unfold concat_axis1, take_rows, feature_columns, label.
    cbn [nrows columns]. rewrite length_app, length_seq. reflexivity.
Qed.

Lemma oversample_data_succeeds : forall df g y a b,
    aligned df = true ->
    getitem df label = Ok y ->
    classification_target y = true ->
    In a (series_cells y) -> In b (series_cells y) -> a <> b ->
    exists out g', oversample_data df g = (Ok out, g').
Proof.
  intros df g y a b Hal Hy Hct Ha Hb Hne. unfold oversample_data.
  rewrite drop_succeeds.
  2:{ intros l [<- | []]. eapply getitem_ok_has; eauto. }
  unfold label in Hy. rewrite Hy.
  destruct (fit_resample_succeeds
              (mkDataFrame (nrows df)
                 (filter (fun c => negb (mem (fst c) ["type_of_failure"])) (columns df)))
              y g a b Hct) as [Xr [yr [g' Hf]]]; auto.
  { simpl. eapply aligned_getitem; eauto. }
  rewrite Hf. eauto.
Qed.

(** The rows of the output are rows of the input: row [j] of the output is
    the input row at position [idx[j]]. *)
Lemma resampled_row : forall df y idx name j i,
    aligned df = true ->
    lookup label (columns df) = Some y ->
    (forall k, In k idx -> k < nrows df) ->
    nth_error idx j = Some i ->
    cell_at (mkDataFrame (length idx)
               (map (fun c => (fst c, take (snd c) idx)) (feature_columns df)
                ++ [(label, take y idx)])) name j
    = cell_at df name i.
Proof.
  intros df y idx name j i Hal Hy Hrange Hj. unfold cell_at. cbn [columns].
  rewrite lookup_app, lookup_map_take. unfold feature_columns.
  destruct (String.eqb name label) eqn:En.
  - apply String.eqb_eq in En. subst name.
    rewrite lookup_filter_dropped by reflexivity. simpl. rewrite Hy.
    apply take_in_range; [| exact Hj].
    intros k Hk. rewrite (aligned_lookup _ _ _ Hal Hy). auto.
  - rewrite lookup_filter_kept by (simpl; now rewrite En).
    destruct (lookup name (columns df)) as [s |] eqn:Es; simpl.
    + apply take_in_range; [| exact Hj].
      intros k Hk. rewrite (aligned_lookup _ _ _ Hal Es). auto.
    + now rewrite En.
Qed.

Lemma resampled_aligned : forall df y idx,
    aligned df = true ->
    lookup label (columns df) = Some y ->
    (forall k, In k idx -> k < nrows df) ->
    aligned (mkDataFrame (length idx)
               (map (fun c => (fst c, take (snd c) idx)) (feature_columns df)
                ++ [(label, take y idx)])) = true.
Proof.
  intros df y idx Hal Hy Hrange. unfold aligned. cbn [columns nrows].
  rewrite forallb_app. apply andb_true_iff. split.
  - apply forallb_forall. intros [n s] Hin. apply in_map_iff in Hin.
    destruct Hin as [[n0 s0] [Heq Hin]]. simpl in Heq. inversion Heq; subst.
    simpl. apply Nat.eqb_eq. apply take_in_range.
    unfold feature_columns in Hin. apply filter_In in Hin. destruct Hin as [Hin _].
    unfold aligned in Hal. rewrite forallb_forall in Hal.
    specialize (Hal _ Hin). simpl in Hal. apply Nat.eqb_eq in Hal.
    intros k Hk. rewrite Hal. auto.
  - simpl. rewrite andb_true_r. apply Nat.eqb_eq. apply take_in_range.
    intros k Hk. rewrite (aligned_lookup _ _ _ Hal Hy). auto.
Qed.

Lemma sample_indices_range : forall n extra,
    (forall j, In j extra -> j < n) ->
    forall k, In k (seq 0 n ++ extra) -> k < n.
Proof.
  intros n extra He k Hk. apply in_app_or in Hk. destruct Hk as [Hk | Hk]; [| auto].
  apply in_seq in Hk. lia.
Qed.

Lemma oversample_data_shape : forall df g out g',
    aligned df = true ->
    oversample_data df g = (Ok out, g') ->
    exists y idx,
      getitem df label = Ok y /\
      getitem out label = Ok (resampled_labels y) /\
      nrows out = length idx /\
      nrows df <= nrows out /\
      aligned out = true /\
      (forall j, j < nrows df -> nth_error idx j = Some j) /\
      (forall j, j < nrows out -> exists i, nth_error idx j = Some i /\ i < nrows df) /\
      (forall name j i, nth_error idx j = Some i ->
                        cell_at out name j = cell_at df name i).
Proof.
  intros df g out g' Hal Ho. apply oversample_data_inv in Ho.
  destruct Ho as [y [extra [Hy [Hct [Hl [Hn [Hrange [Htake Hout]]]]]]]].
  set (idx := seq 0 (nrows df) ++ extra) in *.
  assert (Hidx : forall k, In k idx -> k < nrows df)
    by (apply sample_indices_range; exact Hrange).
  assert (Hlen : length idx = nrows df + length extra)
    by (unfold idx; now rewrite length_app, length_seq).
  assert (Hlook : lookup label (columns df) = Some y).
  { unfold getitem in Hy. destruct (lookup label (columns df)); congruence. }
  rewrite <- Htake, <- Hlen in Hout.
  exists y, idx. subst out. repeat split.
  - exact Hy.
  - unfold getitem. cbn [columns]. rewrite lookup_app, lookup_map_take.
    unfold feature_columns. rewrite lookup_filter_dropped by reflexivity.
    simpl. now rewrite Htake.
  - simpl. lia.
  - now apply resampled_aligned.
  - intros j Hj. unfold idx. rewrite nth_error_app1 by (rewrite length_seq; lia).
    rewrite nth_error_nth' with (d := 0) by (rewrite length_seq; lia).
    now rewrite seq_nth.
  - simpl. intros j Hj. destruct (nth_error idx j) as [i |] eqn:Ei.
    + exists i. split; [reflexivity |]. apply Hidx. eapply nth_error_In; eauto.
    + apply nth_error_None in Ei. lia.
  - intros name j i Hj. now apply resampled_row.
Qed.
End OversampleFacts.

(** * Stage 2: the schema normaliser *)

Lemma has_column_filter : forall df labels name,
    mem name labels = true ->
    has_column (mkDataFrame (nrows df)
       (filter (fun c => negb (mem (fst c) labels)) (columns df))) name = false.
Proof.
  intros df labels name Hm. unfold has_column, names. simpl.
  apply lookup_none. now apply lookup_filter_dropped.
Qed.

(** C7, counterexample: a table that has both identifier columns but no
    [Target] column is accepted: the rename ignores the missing label and
    the two identifier columns are dropped. *)
Lemma rename_and_drop_columns_without_target :
  has_column no_target_df "Target" = false /\
  rename_and_drop_columns no_target_df = Ok (mkDataFrame 1 [("Type", StrSeries ["M"])]).
Proof. split; reflexivity. Qed.

(** C7, as amended: [rename_and_drop_columns] fails exactly when one of the
    identifier columns [UDI], [Product ID] is absent, the failure is a
    [KeyError], and a second run on the output of a successful run always
    fails that way.  An absent [Target] column alone is not an error. *)
Theorem rename_and_drop_columns_fails_iff : forall df : DataFrame,
  ((exists e, rename_and_drop_columns df = Err e) <->
   (has_column df "UDI" = false \/ has_column df "Product ID" = false)) /\
  (forall e, rename_and_drop_columns df = Err e -> exists missing, e = KeyError missing) /\
  (forall out, rename_and_drop_columns df = Ok out ->
     rename_and_drop_columns out = Err (KeyError ["UDI"; "Product ID"])).
Proof.
  intros df. unfold rename_and_drop_columns.
  assert (Hu : forall d, has_column (rename d "Target" "Machine failure") "UDI"
                         = has_column d "UDI")
    by (intros d; now apply rename_has_other).
  assert (Hp : forall d, has_column (rename d "Target" "Machine failure") "Product ID"
                         = has_column d "Product ID")
    by (intros d; now apply rename_has_other).
  split; [| split].
  - split.
    + intros [e He]. apply drop_err in He. destruct He as [l [Hin Hc]].
      simpl in Hin. destruct Hin as [<- | [<- | []]].
      * left. now rewrite <- Hu.
      * right. now rewrite <- Hp.
    + intros Habs.
      destruct (drop (rename df "Target" "Machine failure") ["UDI"; "Product ID"])
        as [out | e] eqn:E; [| eauto].
      apply drop_ok in E. destruct E as [_ Hall].
      pose proof (Hall "UDI" (or_introl eq_refl)) as H1.
      pose proof (Hall "Product ID" (or_intror (or_introl eq_refl))) as H2.
      rewrite Hu in H1. rewrite Hp in H2. destruct Habs; congruence.
  - intros e He. unfold drop in He.
    destruct (filter _ _) as [| l r]; [discriminate |]. inversion He. eauto.
  - intros out Hout. apply drop_ok in Hout. destruct Hout as [-> _].
    set (out := mkDataFrame _ _).
    assert (H1 : has_column (rename out "Target" "Machine failure") "UDI" = false).
    { rewrite Hu. now apply has_column_filter. }
    assert (H2 : has_column (rename out "Target" "Machine failure") "Product ID" = false).
    { rewrite Hp. now apply has_column_filter. }
    unfold drop. cbn [filter]. rewrite H1, H2. reflexivity.
Qed.

Lemma rename_and_drop_columns_fails_iff_witness :
  rename_and_drop_columns raw_df = Ok normalized_df /\
  rename_and_drop_columns normalized_df = Err (KeyError ["UDI"; "Product ID"]).
Proof.
  split; [reflexivity |].
  apply (proj2 (proj2 (rename_and_drop_columns_fails_iff raw_df))).
  reflexivity.
Defined.

(** * Stage 3: the unit converter *)


Lemma convert_temperature_steps : forall df out,
    convert_temperature df = Ok out ->
    exists air airc df1 proc procc df2,
      getitem df "Air temperature [K]" = Ok air /\
      series_sub air kelvin_offset = Ok airc /\
      setitem df "Air temperature [c]" airc = Ok df1 /\
      getitem df "Process temperature [K]" = Ok proc /\
      series_sub proc kelvin_offset = Ok procc /\
      setitem df1 "Process temperature [c]" procc = Ok df2 /\
      drop df2 ["Air temperature [K]"; "Process temperature [K]"] = Ok out.
Proof.
  intros df out H. unfold convert_temperature in H.
  bind_inv H air Hair. bind_inv H airc Hairc. bind_inv H df1 Hdf1.
  bind_inv H proc Hproc. bind_inv H procc Hprocc. bind_inv H df2 Hdf2.
  exists air, airc, df1, proc, procc, df2. repeat split; try assumption.
  unfold getitem in *.
  now rewrite (setitem_lookup_other _ _ _ _ _ Hdf1) in Hproc.
Qed.




(** * Stage 4: the categorical encoder *)

Lemma mem_In : forall x l, mem x l = true <-> In x l.
Proof.
  intros x l. unfold mem. rewrite existsb_exists. split.
  - intros [y [Hy He]]. apply String.eqb_eq in He. now subst.
  - intros Hin. exists x. split; [exact Hin | apply String.eqb_refl].
Qed.

Lemma encode_features_steps : forall df out,
    encode_features df = Ok out ->
    exists typ ranks df1 failure,
      getitem df "Type" = Ok typ /\
      ordinal_fit_transform type_categories typ = Ok ranks /\
      setitem df "Type" ranks = Ok df1 /\
      getitem df "Failure Type" = Ok failure /\
      setitem df1 "type_of_failure" (label_fit_transform failure) = Ok out.
Proof.
  intros df out H. unfold encode_features in H.
  bind_inv H typ Htyp. bind_inv H ranks Hranks. bind_inv H df1 Hdf1.
  bind_inv H failure Hfail.
  exists typ, ranks, df1, failure. repeat split; try assumption.
  unfold getitem in *.
  now rewrite (setitem_lookup_other _ _ _ _ _ Hdf1) in Hfail.
Qed.



(** C3, counterexample: with ["No Failure"] in the first row and
    ["Heat Dissipation Failure"] in the second, the first row receives code
    1 and the second code 0, whereas numbering by first appearance gives 0
    and 1. *)
Lemma encode_features_codes_not_first_appearance :
  exists out,
    encode_features two_failures_df = Ok out /\
    getitem out "type_of_failure" = Ok (NumSeries (map Qc_of_nat [1; 0])) /\
    first_appearance_codes ["No Failure"; "Heat Dissipation Failure"] = [0; 1].
Proof.
  eexists. split; [reflexivity |]. split; reflexivity.
Qed.

(** C3, as amended: [encode_features] numbers the distinct strings of
    [Failure Type] in increasing (code point) order: within one run two
    rows receive the same code exactly when they hold the same string, and
    a row receives a smaller code than another exactly when its string
    sorts before the other's. *)
Theorem encode_features_label_codes :
  forall (df out : DataFrame) (v : list string),
    encode_features df = Ok out ->
    getitem df "Failure Type" = Ok (StrSeries v) ->
    exists codes,
      getitem out "type_of_failure" = Ok (NumSeries (map Qc_of_nat codes)) /\
      length codes = length v /\
      forall i j si sj ci cj,
        nth_error v i = Some si -> nth_error v j = Some sj ->
        nth_error codes i = Some ci -> nth_error codes j = Some cj ->
        (ci = cj <-> si = sj) /\
        (ci < cj <-> String.compare si sj = Lt) /\
        (Qc_of_nat ci = Qc_of_nat cj <-> ci = cj).
Proof.
  intros df out v H Hv. apply encode_features_steps in H.
  destruct H as [typ [ranks [df1 [failure [_ [_ [_ [Hf Hout]]]]]]]].
  rewrite Hv in Hf. inversion Hf; subst failure. clear Hf.
  exists (label_codes String.compare v). split; [| split].
  - unfold getitem. now rewrite (setitem_lookup_same _ _ _ _ Hout).
  - unfold label_codes. now rewrite length_map.
  - intros i j si sj ci cj Hi Hj Hci Hcj. unfold label_codes in Hci, Hcj.
    rewrite nth_error_map, Hi in Hci. rewrite nth_error_map, Hj in Hcj.
    simpl in Hci, Hcj. inversion Hci; inversion Hcj; subst ci cj.
    apply nth_error_In in Hi, Hj.
    apply (In_unique_sorted String.compare) in Hi, Hj.
    split; [| split].
    + apply (index_of_eq_iff String.compare); assumption.
    + apply (index_of_lt_iff String.compare); try assumption.
      apply increasing_unique_sorted. exact string_order.
    + split; [apply Qc_of_nat_inj | now intros ->].
Qed.

Lemma encode_features_label_codes_witness :
  exists codes,
    getitem encoded_df "type_of_failure" = Ok (NumSeries (map Qc_of_nat codes)) /\
    length codes = 6 /\
    forall i j si sj ci cj,
      nth_error ["No Failure"; "No Failure"; "Power Failure"; "No Failure";
                 "Heat Dissipation Failure"; "Power Failure"] i = Some si ->
      nth_error ["No Failure"; "No Failure"; "Power Failure"; "No Failure";
                 "Heat Dissipation Failure"; "Power Failure"] j = Some sj ->
      nth_error codes i = Some ci -> nth_error codes j = Some cj ->
      (ci = cj <-> si = sj) /\
      (ci < cj <-> String.compare si sj = Lt) /\
      (Qc_of_nat ci = Qc_of_nat cj <-> ci = cj).
Proof.
  apply (encode_features_label_codes celsius_df encoded_df
           ["No Failure"; "No Failure"; "Power Failure"; "No Failure";
            "Heat Dissipation Failure"; "Power Failure"]).
  - vm_compute. reflexivity.
  - reflexivity.
Defined.

(** * Stage 5: the numeric scaler *)

Lemma Forall2_nth_error : forall (A B : Type) (R : A -> B -> Prop) l1 l2 k a,
    Forall2 R l1 l2 -> nth_error l1 k = Some a ->
    exists b, nth_error l2 k = Some b /\ R a b.
Proof.
  intros A B R l1 l2 k a HF. revert k. induction HF as [| x y l1 l2 Hxy HF IH];
    intros k Hk; destruct k as [| k]; simpl in *; try discriminate.
  - inversion Hk; subst. eauto.
  - auto.
Qed.


Lemma scale_features_steps : forall df out,
    scale_features df = Ok out ->
    exists X,
      Forall2 (fun l v => lookup l (columns df) = Some (NumSeries v)) col_to_scale X /\
      nrows df <> 0 /\
      setitems df col_to_scale (map (fun v => NumSeries (minmax_column v)) X) = Ok out.
Proof.
  intros df out H. unfold scale_features in H.
  bind_inv H cols Hcols. bind_inv H scaled Hscaled.
  unfold minmax_fit_transform in Hscaled. bind_inv Hscaled X HX.
  destruct (nrows df =? 0) eqn:En; [discriminate |].
  inversion Hscaled; subst scaled. clear Hscaled.
  apply as_float_columns_ok in HX. subst cols.
  apply getitems_ok in Hcols. exists X. split; [| split].
  - remember col_to_scale as labels eqn:El. clear El H.
    revert labels Hcols. induction X as [| v X IH]; intros labels HF;
      inversion HF; subst; constructor; auto.
  - now apply Nat.eqb_neq.
  - exact H.
Qed.


(** C10: [scale_features] leaves the row count, the column labels and
    their order unchanged, and every column other than the five scaled
    ones is exactly what it was. *)
Theorem scale_features_frame :
  forall (df out : DataFrame),
    scale_features df = Ok out ->
    nrows out = nrows df /\
    names out = names df /\
    forall name, ~ In name col_to_scale -> getitem out name = getitem df name.
Proof.
  intros df out H. apply scale_features_steps in H.
  destruct H as [X [HF [_ Hset]]].
  destruct (setitems_frame _ _ _ _ Hset) as [Hn [Hother Hnames]].
  split; [exact Hn |]. split.
  - apply Hnames. intros l Hl. apply In_nth_error in Hl. destruct Hl as [k Hk].
    destruct (Forall2_nth_error _ _ _ _ _ k l HF Hk) as [v [_ Hv]].
    unfold has_column, names.
    destruct (existsb (String.eqb l) (map fst (columns df))) eqn:E; [reflexivity |].
    apply lookup_none in E. congruence.
  - intros name Hni. unfold getitem. now rewrite Hother.
Qed.

Lemma scale_features_frame_witness :
  nrows scaled_df = nrows encoded_df /\
  names scaled_df = names encoded_df /\
  forall name, ~ In name col_to_scale ->
               getitem scaled_df name = getitem encoded_df name.
Proof.
  apply (scale_features_frame encoded_df scaled_df).
  vm_compute. reflexivity.
Defined.




(** * Stage 6: the class balancer *)






(** * Row counts across the stages *)

Lemma setitems_aligned : forall labels values df out,
    aligned df = true -> setitems df labels values = Ok out -> aligned out = true.
Proof.
  induction labels as [| l ls IH]; intros values df out Hal H.
  - simpl in H. inversion H; subst. exact Hal.
  - destruct values as [| v vs]; simpl in H.
    + inversion H; subst. exact Hal.
    + apply bind_ok in H. destruct H as [df1 [H1 H]].
      eapply IH; [| exact H]. eapply setitem_aligned; eauto.
Qed.

(** C8: the number of rows, and the length of every column, is the same
    after [rename_and_drop_columns], [convert_temperature],
    [encode_features] and [scale_features] as before; [oversample_data]
    never removes rows. *)
Theorem row_count_through_stages :
  forall df : DataFrame,
    aligned df = true ->
    (forall out, rename_and_drop_columns df = Ok out ->
                 nrows out = nrows df /\ aligned out = true) /\
    (forall out, convert_temperature df = Ok out ->
                 nrows out = nrows df /\ aligned out = true) /\
    (forall out, encode_features df = Ok out ->
                 nrows out = nrows df /\ aligned out = true) /\
    (forall out, scale_features df = Ok out ->
                 nrows out = nrows df /\ aligned out = true) /\
    (forall (G : Type) (RS : RandomSource G) (g g' : G) out,
        oversample_data df g = (Ok out, g') ->
        nrows df <= nrows out /\ aligned out = true).
Proof.
  intros df Hal. repeat split.
  - unfold rename_and_drop_columns in H.
    apply drop_aligned in H; [| now apply rename_aligned]. apply H.
  - unfold rename_and_drop_columns in H.
    apply drop_aligned in H; [| now apply rename_aligned]. apply H.
  - apply convert_temperature_steps in H.
    destruct H as [air [airc [df1 [proc [procc [df2
      [_ [_ [Hdf1 [_ [_ [Hdf2 H]]]]]]]]]]]].
    apply drop_ok in H. destruct H as [-> _]. simpl.
    rewrite (setitem_nrows _ _ _ _ Hdf2). apply (setitem_nrows _ _ _ _ Hdf1).
  - apply convert_temperature_steps in H.
    destruct H as [air [airc [df1 [proc [procc [df2
      [_ [_ [Hdf1 [_ [_ [Hdf2 H]]]]]]]]]]]].
    apply drop_aligned in H; [apply H |].
    eapply setitem_aligned; [| exact Hdf2]. eapply setitem_aligned; eauto.
  - apply encode_features_steps in H.
    destruct H as [typ [ranks [df1 [failure [_ [_ [Hdf1 [_ Hout]]]]]]]].
    rewrite (setitem_nrows _ _ _ _ Hout). apply (setitem_nrows _ _ _ _ Hdf1).
  - apply encode_features_steps in H.
    destruct H as [typ [ranks [df1 [failure [_ [_ [Hdf1 [_ Hout]]]]]]]].
    eapply setitem_aligned; [| exact Hout]. eapply setitem_aligned; eauto.
  - apply scale_features_steps in H. destruct H as [X [_ [_ Hset]]].
    apply (setitems_frame _ _ _ _ Hset).
  - apply scale_features_steps in H. destruct H as [X [_ [_ Hset]]].
    eapply setitems_aligned; eauto.
  - destruct (oversample_data_shape df g out g' Hal H)
      as [y [idx [_ [_ [_ [Hle _]]]]]]. exact Hle.
  - destruct (oversample_data_shape df g out g' Hal H)
      as [y [idx [_ [_ [_ [_ [Ha _]]]]]]]. exact Ha.
Qed.

Lemma row_count_through_stages_witness :
  nrows normalized_df = nrows raw_df /\
  nrows celsius_df = nrows normalized_df /\
  nrows encoded_df = nrows celsius_df /\
  nrows scaled_df = nrows encoded_df /\
  nrows scaled_df <= nrows balanced_df.
Proof.
  split; [| split; [| split; [| split]]].
  - apply (proj1 (row_count_through_stages raw_df eq_refl)). reflexivity.
  - apply (proj1 (proj2 (row_count_through_stages normalized_df eq_refl))).
    vm_compute. reflexivity.
  - apply (proj1 (proj2 (proj2 (row_count_through_stages celsius_df eq_refl)))).
    vm_compute. reflexivity.
  - apply (proj1 (proj2 (proj2 (proj2 (row_count_through_stages encoded_df eq_refl))))).
    vm_compute. reflexivity.
  - apply (proj2 (proj2 (proj2 (proj2 (row_count_through_stages scaled_df eq_refl))))
             nat CounterSource 0 3 balanced_df).
    vm_compute. reflexivity.
Defined.

(** * Stage 7: the splitter *)

Lemma drop_label_names : forall df X,
    drop df ["type_of_failure"] = Ok X ->
    X = mkDataFrame (nrows df) (feature_columns df).
Proof.
  intros df X H. apply drop_ok in H. apply H.
Qed.

Lemma take_rows_names : forall df idx, names (take_rows df idx) = names df.
Proof.
  intros df idx. unfold names, take_rows. simpl. rewrite map_map. reflexivity.
Qed.

Lemma in_firstn_skipn : forall (A : Type) (k : nat) (l : list A) (x : A),
    In x (firstn k l) \/ In x (skipn k l) -> In x l.
Proof.
  intros A k l x Hx. rewrite <- (firstn_skipn k l). apply in_or_app. exact Hx.
Qed.

Lemma map_fst_filter : forall (p : string -> bool) (cols : list (string * Series)),
    map fst (filter (fun c => p (fst c)) cols) = filter p (map fst cols).
Proof.
  intros p cols. induction cols as [| c cols IH]; simpl; [reflexivity |].
  destruct (p (fst c)); simpl; now rewrite IH.
Qed.

Lemma feature_column_names : forall df,
    names (mkDataFrame (nrows df) (feature_columns df))
    = filter (fun n => negb (String.eqb n "type_of_failure")) (names df).
Proof.
  intros df. unfold names, feature_columns. cbn [columns].
  rewrite <- map_fst_filter. f_equal. apply filter_ext.
  intros c. unfold mem, label. simpl. now rewrite orb_false_r.
Qed.

Lemma test_size_le : forall n, (n + 4) / 5 <= n.
Proof.
  intros n. destruct (Nat.eq_dec n 0) as [-> | Hn]; [reflexivity |].
  apply Nat.Div0.div_le_upper_bound. lia.
Qed.

(** C4: when [train_test_split] succeeds, the feature parts hold all
    columns but [type_of_failure] and the label parts hold
    [type_of_failure], both selected by one permutation of the row numbers
    drawn from a generator seeded with 42: its first [ceil(0.2 * n)] entries
    are the test rows and the rest the train rows.  Features and labels
    have the same number of rows in each part, the parts together have as
    many rows as the table, and the result does not depend on the state of
    the generator shared by the process, which the call leaves untouched. *)
Theorem train_test_split_partition :
  forall (G : Type) (RS : RandomSource G) (df : DataFrame) (g g' : G)
         (parts : Artifacts),
    aligned df = true ->
    train_test_split df g = (Ok parts, g') ->
    (exists y perm,
        getitem df "type_of_failure" = Ok y /\
        perm = fst (permutation (seed 42) (nrows df)) /\
        Permutation perm (seq 0 (nrows df)) /\
        X_test parts = take_rows (mkDataFrame (nrows df) (feature_columns df))
                         (firstn ((nrows df + 4) / 5) perm) /\
        X_train parts = take_rows (mkDataFrame (nrows df) (feature_columns df))
                          (skipn ((nrows df + 4) / 5) perm) /\
        y_test parts = take y (firstn ((nrows df + 4) / 5) perm) /\
        y_train parts = take y (skipn ((nrows df + 4) / 5) perm)) /\
    names (X_train parts) = filter (fun n => negb (String.eqb n "type_of_failure")) (names df) /\
    names (X_test parts) = names (X_train parts) /\
    series_len (y_train parts) = nrows (X_train parts) /\
    series_len (y_test parts) = nrows (X_test parts) /\
    nrows (X_test parts) = (nrows df + 4) / 5 /\
    nrows (X_train parts) + nrows (X_test parts) = nrows df /\
    g' = g /\
    forall g2 : G, train_test_split df g2 = (Ok parts, g2).
Proof.
  intros G RS df g g' parts Hal H. unfold train_test_split in H.
  injection H as Hr Hg.
  assert (Hany : forall g2 : G, train_test_split df g2 = (Ok parts, g2)).
  { intros g2. unfold train_test_split. now rewrite Hr. }
  bind_inv Hr X HX. apply drop_label_names in HX. bind_inv Hr y Hy.
  unfold sk_train_test_split in Hr.
  bind_inv Hr u Hlen. bind_inv Hr sizes Hsizes. destruct sizes as [n_train n_test].
  unfold validate_shuffle_split in Hsizes.
  assert (Hrows : nrows X = nrows df) by (rewrite HX; reflexivity).
  rewrite Hrows in *. set (n := nrows df) in *.
  set (k := (n + 4) / 5) in *.
  destruct (n - k =? 0); [discriminate |].
  injection Hsizes as Ht1 Ht2. subst n_train n_test.
  set (perm := fst (permutation (seed 42) n)) in *.
  pose proof (permutation_perm (seed 42) n) as Hperm. fold perm in Hperm.
  assert (Hpl : length perm = n).
  { rewrite (Permutation_length Hperm). apply length_seq. }
  assert (Htrain : firstn (n - k) (skipn k perm) = skipn k perm).
  { apply firstn_all2. rewrite length_skipn. lia. }
  cbv zeta in Hr. fold perm in Hr. rewrite Htrain in Hr.
  injection Hr as Hparts. subst parts. cbn [X_train X_test y_train y_test].
  assert (Hin : forall i, In i perm -> i < series_len y).
  { intros i Hi. rewrite (aligned_getitem _ _ _ Hal Hy).
    apply (Permutation_in _ Hperm) in Hi. apply in_seq in Hi. fold n. lia. }
  pose proof (test_size_le n) as Hts. fold k in Hts.
  repeat split.
  - exists y, perm. rewrite HX. repeat split; auto.
  - rewrite take_rows_names, HX. apply feature_column_names.
  - now rewrite !take_rows_names.
  - cbn [take_rows nrows]. apply take_in_range.
    intros i Hi. apply Hin. apply (in_firstn_skipn _ k). now right.
  - cbn [take_rows nrows]. apply take_in_range.
    intros i Hi. apply Hin. apply (in_firstn_skipn _ k). now left.
  - cbn [take_rows nrows]. rewrite length_firstn. lia.
  - cbn [take_rows nrows]. rewrite length_firstn, length_skipn. lia.
  - symmetry. exact Hg.
  - exact Hany.
Qed.

Lemma train_test_split_partition_witness :
  nrows (X_test sample_split) = 2 /\
  nrows (X_train sample_split) + nrows (X_test sample_split) = 9 /\
  series_len (y_train sample_split) = nrows (X_train sample_split) /\
  series_len (y_test sample_split) = nrows (X_test sample_split) /\
  train_test_split balanced_df 7 = (Ok sample_split, 7).
Proof.
  destruct (train_test_split_partition nat CounterSource balanced_df 0 0 sample_split)
    as [_ [_ [_ [Htrain [Htest [Hn [Hsum [_ Hany]]]]]]]].
  - reflexivity.
  - vm_compute. reflexivity.
  - split; [exact Hn |]. split; [exact Hsum |]. split; [exact Htrain |].
    split; [exact Htest |]. apply Hany.
Defined.

(** * Further properties of the stages *)

(** ** Stage 2 *)

Lemma lookup_rename_other : forall df old new name,
    String.eqb name old = false -> String.eqb name new = false ->
    lookup name (columns (rename df old new)) = lookup name (columns df).
Proof.
  intros df old new name Ho Hn. unfold rename. cbn [columns].
  induction (columns df) as [| [n s] r IH]; [reflexivity |].
  cbn [map fst snd]. destruct (String.eqb n old) eqn:E; cbn [lookup].
  - apply String.eqb_eq in E. subst n. now rewrite Ho, Hn.
  - now rewrite IH.
Qed.

Lemma lookup_rename_new : forall df old new,
    has_column df new = false ->
    lookup new (columns (rename df old new)) = lookup old (columns df).
Proof.
  intros df old new. unfold has_column, names, rename. cbn [columns].
  induction (columns df) as [| [n s] r IH]; [reflexivity |].
  cbn [map fst snd existsb]. intros Hc. apply orb_false_iff in Hc.
  destruct Hc as [Hn Hr]. cbn [lookup]. rewrite (String.eqb_sym old n).
  destruct (String.eqb n old) eqn:E; cbn [lookup].
  - now rewrite String.eqb_refl.
  - rewrite Hn. now apply IH.
Qed.

Lemma lookup_rename_old : forall df old new,
    String.eqb old new = false ->
    lookup old (columns (rename df old new)) = None.
Proof.
  intros df old new Hne. unfold rename. cbn [columns].
  induction (columns df) as [| [n s] r IH]; [reflexivity |].
  cbn [map fst snd]. destruct (String.eqb n old) eqn:E; cbn [lookup].
  - now rewrite Hne.
  - rewrite String.eqb_sym, E. exact IH.
Qed.

Lemma names_rename : forall df old new,
    names (rename df old new)
    = map (fun n => if String.eqb n old then new else n) (names df).
Proof.
  intros df old new. unfold names, rename. cbn [columns]. rewrite !map_map.
  apply map_ext. intros [n s]. cbn [fst snd]. now destruct (String.eqb n old).
Qed.

Lemma names_dropped : forall labels (cols : list (string * Series)),
    map fst (filter (fun c => negb (mem (fst c) labels)) cols)
    = filter (fun n => negb (mem n labels)) (map fst cols).
Proof.
  intros labels cols. exact (map_fst_filter (fun n => negb (mem n labels)) cols).
Qed.

(** X1: a successful [rename_and_drop_columns] keeps the remaining columns
    in their order, with the label [Target] replaced by [Machine failure];
    the table no longer has a [Target] column, the data of [Target] is now
    under [Machine failure], and every other remaining column is exactly
    what it was. *)
Theorem rename_and_drop_columns_layout :
  forall df out : DataFrame,
    rename_and_drop_columns df = Ok out ->
    names out =
      filter (fun n => negb (mem n ["UDI"; "Product ID"]))
        (map (fun n => if String.eqb n "Target" then "Machine failure" else n)
             (names df)) /\
    getitem out "Target" = Err (KeyError ["Target"]) /\
    (forall s, has_column df "Machine failure" = false ->
               getitem df "Target" = Ok s ->
               getitem out "Machine failure" = Ok s) /\
    (forall name,
        ~ In name ["UDI"; "Product ID"; "Target"; "Machine failure"] ->
        getitem out name = getitem df name).
Proof.
  intros df out H. unfold rename_and_drop_columns in H.
  apply drop_ok in H. destruct H as [-> _].
  split; [| split; [| split]].
  - unfold names at 1. cbn [columns]. rewrite names_dropped.
    f_equal. apply names_rename.
  - unfold getitem. cbn [columns]. rewrite lookup_filter_kept by reflexivity.
    now rewrite lookup_rename_old.
  - intros s Hc Hs. unfold getitem in *. cbn [columns].
    rewrite lookup_filter_kept by reflexivity.
    rewrite lookup_rename_new by assumption.
    destruct (lookup "Target" (columns df)); [exact Hs | discriminate].
  - intros name Hni. unfold getitem. cbn [columns].
    assert (Hk : mem name ["UDI"; "Product ID"] = false).
    { destruct (mem name ["UDI"; "Product ID"]) eqn:E; [| reflexivity].
      apply mem_In in E. exfalso. apply Hni. simpl in *. tauto. }
    rewrite lookup_filter_kept by assumption.
    rewrite lookup_rename_other; [reflexivity | |];
      apply String.eqb_neq; intros ->; apply Hni; simpl; tauto.
Qed.

Lemma rename_and_drop_columns_layout_witness :
  names normalized_df =
    ["Type"; "Air temperature [K]"; "Process temperature [K]";
     "Rotational speed [rpm]"; "Torque [Nm]"; "Tool wear [min]";
     "Machine failure"; "Failure Type"] /\
  getitem normalized_df "Machine failure" = getitem raw_df "Target".
Proof.
  destruct (rename_and_drop_columns_layout raw_df normalized_df eq_refl)
    as [Hn [_ [Hm _]]].
  split; [rewrite Hn; reflexivity |].
  rewrite (Hm (NumSeries (map int [0; 0; 1; 0; 1; 1]%Z))); reflexivity.
Defined.

(** ** Stage 3 *)

Lemma getitem_missing : forall df name,
    has_column df name = false -> getitem df name = Err (KeyError [name]).
Proof.
  intros df name Hc. unfold getitem. unfold has_column, names in Hc.
  apply lookup_none in Hc. now rewrite Hc.
Qed.

Lemma getitem_has : forall df name,
    has_column df name = true -> exists s, getitem df name = Ok s.
Proof.
  intros df name Hc. unfold getitem.
  destruct (lookup_some name (columns df) Hc) as [s Hs]. rewrite Hs. eauto.
Qed.

Lemma getitem_setitem_other : forall df name other s out,
    setitem df name s = Ok out -> String.eqb other name = false ->
    getitem out other = getitem df other.
Proof.
  intros df name other s out H Hne. unfold getitem.
  now rewrite (setitem_lookup_other _ _ _ _ _ H Hne).
Qed.

Lemma getitem_setitem_same : forall df name s out,
    setitem df name s = Ok out -> getitem out name = Ok s.
Proof.
  intros df name s out H. unfold getitem.
  now rewrite (setitem_lookup_same _ _ _ _ H).
Qed.

Lemma setitem_names : forall df name s out,
    setitem df name s = Ok out ->
    names out = if has_column df name then names df else names df ++ [name].
Proof.
  unfold setitem. intros df name s out H.
  destruct (series_len s =? nrows df); [| discriminate].
  destruct (has_column df name); inversion H; unfold names; cbn [columns].
  - apply replace_col_names.
  - now rewrite map_app.
Qed.

Lemma has_column_setitem : forall df name s out other,
    setitem df name s = Ok out ->
    has_column out other = has_column df other || String.eqb other name.
Proof.
  intros df name s out other H. unfold has_column at 1.
  rewrite (setitem_names _ _ _ _ H). destruct (has_column df name) eqn:Hc.
  - fold (has_column df other). destruct (String.eqb other name) eqn:E.
    + apply String.eqb_eq in E. subst. now rewrite Hc.
    + now rewrite orb_false_r.
  - rewrite existsb_app. cbn [existsb]. now rewrite orb_false_r.
Qed.

Lemma has_column_dropped : forall df labels out name,
    drop df labels = Ok out ->
    has_column out name = has_column df name && negb (mem name labels).
Proof.
  intros df labels out name H. apply drop_ok in H. destruct H as [-> _].
  unfold has_column, names. cbn [columns]. rewrite names_dropped.
  induction (map fst (columns df)) as [| n r IH]; [reflexivity |].
  cbn [filter]. destruct (mem n labels) eqn:En; cbn [negb existsb].
  - rewrite IH. destruct (String.eqb name n) eqn:E; [| reflexivity].
    apply String.eqb_eq in E. subst. rewrite En. cbn [negb].
    now rewrite !andb_false_r.
  - rewrite IH. destruct (String.eqb name n) eqn:E; cbn [orb]; [| reflexivity].
    apply String.eqb_eq in E. subst. now rewrite En.
Qed.

(** X2: on a table whose columns are as long as its index,
    [convert_temperature] raises [KeyError] for the first Kelvin column
    that is missing, [TypeError] for the first Kelvin column that holds
    strings, and succeeds when both Kelvin columns are numeric. *)
Theorem convert_temperature_outcome :
  forall df : DataFrame,
    aligned df = true ->
    (has_column df "Air temperature [K]" = false ->
     convert_temperature df = Err (KeyError ["Air temperature [K]"])) /\
    (forall s v, getitem df "Air temperature [K]" = Ok (StrSeries (s :: v)) ->
                 convert_temperature df = Err TypeError) /\
    (forall a, getitem df "Air temperature [K]" = Ok (NumSeries a) ->
               has_column df "Process temperature [K]" = false ->
               convert_temperature df = Err (KeyError ["Process temperature [K]"])) /\
    (forall a s v, getitem df "Air temperature [K]" = Ok (NumSeries a) ->
                   getitem df "Process temperature [K]" = Ok (StrSeries (s :: v)) ->
                   convert_temperature df = Err TypeError) /\
    (forall a p, getitem df "Air temperature [K]" = Ok (NumSeries a) ->
                 getitem df "Process temperature [K]" = Ok (NumSeries p) ->
                 exists out, convert_temperature df = Ok out).
Proof.
  intros df Hal.
  assert (Hfirst : forall a, getitem df "Air temperature [K]" = Ok (NumSeries a) ->
            exists df1,
              setitem df "Air temperature [c]"
                (NumSeries (map (fun k => (k - kelvin_offset)%Qc) a)) = Ok df1).
  { intros a Ha. apply setitem_succeeds. simpl. rewrite length_map.
    exact (aligned_getitem _ _ _ Hal Ha). }
  split; [| split; [| split; [| split]]].
  - intros Hc. unfold convert_temperature. now rewrite (getitem_missing _ _ Hc).
  - intros s v Ha. unfold convert_temperature. now rewrite Ha.
  - intros a Ha Hc. unfold convert_temperature. rewrite Ha.
    destruct (Hfirst a Ha) as [df1 H1]. cbn [bind series_sub]. rewrite H1.
    cbn [bind]. rewrite (getitem_setitem_other _ _ _ _ _ H1) by reflexivity.
    now rewrite (getitem_missing _ _ Hc).
  - intros a s v Ha Hp. unfold convert_temperature. rewrite Ha.
    destruct (Hfirst a Ha) as [df1 H1]. cbn [bind series_sub]. rewrite H1.
    cbn [bind]. rewrite (getitem_setitem_other _ _ _ _ _ H1) by reflexivity.
    now rewrite Hp.
  - intros a p Ha Hp. unfold convert_temperature. rewrite Ha.
    destruct (Hfirst a Ha) as [df1 H1]. cbn [bind series_sub]. rewrite H1.
    cbn [bind]. rewrite (getitem_setitem_other _ _ _ _ _ H1) by reflexivity.
    rewrite Hp. cbn [bind series_sub].
    destruct (setitem_succeeds df1 "Process temperature [c]"
                (NumSeries (map (fun k => (k - kelvin_offset)%Qc) p))) as [df2 H2].
    { simpl. rewrite length_map, (setitem_nrows _ _ _ _ H1).
      exact (aligned_getitem _ _ _ Hal Hp). }
    rewrite H2. cbn [bind]. rewrite drop_succeeds; [eauto |].
    intros l Hl. rewrite (has_column_setitem _ _ _ _ l H2).
    rewrite (has_column_setitem _ _ _ _ l H1).
    destruct Hl as [<- | [<- | []]].
    + now rewrite (getitem_ok_has _ _ _ Ha).
    + now rewrite (getitem_ok_has _ _ _ Hp).
Qed.

Lemma convert_temperature_outcome_witness :
  (exists out, convert_temperature normalized_df = Ok out) /\
  convert_temperature celsius_df = Err (KeyError ["Air temperature [K]"]).
Proof.
  split.
  - apply (proj2 (proj2 (proj2 (proj2
             (convert_temperature_outcome normalized_df eq_refl))))
             (map tenths [2981; 2982; 2981; 2982; 2983; 2981]%Z)
             (map tenths [3086; 3087; 3085; 3086; 3087; 3086]%Z));
      reflexivity.
  - apply (proj1 (convert_temperature_outcome celsius_df eq_refl)). reflexivity.
Defined.

(** X3: a successful [convert_temperature] leaves every column other than
    the two Kelvin and the two Celsius columns exactly as it was; when the
    table had no Celsius columns yet, the remaining columns keep their
    order and the Celsius columns come last, air before process. *)
Theorem convert_temperature_frame :
  forall df out : DataFrame,
    convert_temperature df = Ok out ->
    (forall name,
        ~ In name ["Air temperature [K]"; "Process temperature [K]";
                   "Air temperature [c]"; "Process temperature [c]"] ->
        getitem out name = getitem df name) /\
    (has_column df "Air temperature [c]" = false ->
     has_column df "Process temperature [c]" = false ->
     names out =
       filter (fun n => negb (mem n ["Air temperature [K]"; "Process temperature [K]"]))
              (names df)
       ++ ["Air temperature [c]"; "Process temperature [c]"]).
Proof.
  intros df out H. apply convert_temperature_steps in H.
  destruct H as [air [airc [df1 [proc [procc [df2
    [_ [_ [Hdf1 [_ [_ [Hdf2 H]]]]]]]]]]]].
  apply drop_ok in H. destruct H as [-> _]. split.
  - intros name Hni. unfold getitem. cbn [columns].
    assert (Hk : mem name ["Air temperature [K]"; "Process temperature [K]"] = false).
    { destruct (mem name _) eqn:E; [| reflexivity].
      apply mem_In in E. exfalso. apply Hni. simpl in *. tauto. }
    rewrite lookup_filter_kept by assumption.
    rewrite (setitem_lookup_other _ _ _ _ _ Hdf2)
      by (apply String.eqb_neq; intros ->; apply Hni; simpl; tauto).
    rewrite (setitem_lookup_other _ _ _ _ _ Hdf1)
      by (apply String.eqb_neq; intros ->; apply Hni; simpl; tauto).
    reflexivity.
  - intros Ha Hp. unfold names at 1. cbn [columns]. rewrite names_dropped.
    fold (names df2). rewrite (setitem_names _ _ _ _ Hdf2).
    rewrite (has_column_setitem _ _ _ _ _ Hdf1), Hp.
    change ("Process temperature [c]" =? "Air temperature [c]")%string with false.
    cbn [orb]. rewrite (setitem_names _ _ _ _ Hdf1), Ha.
    rewrite <- app_assoc, filter_app. reflexivity.
Qed.

Lemma convert_temperature_frame_witness :
  getitem celsius_df "Torque [Nm]" = getitem normalized_df "Torque [Nm]" /\
  names celsius_df =
    ["Type"; "Rotational speed [rpm]"; "Torque [Nm]"; "Tool wear [min]";
     "Machine failure"; "Failure Type";
     "Air temperature [c]"; "Process temperature [c]"].
Proof.
  destruct (convert_temperature_frame normalized_df celsius_df) as [Hf Hn].
  - vm_compute. reflexivity.
  - split.
    + apply Hf. simpl. intros [Hc | [Hc | [Hc | [Hc | []]]]]; discriminate.
    + rewrite Hn; reflexivity.
Defined.

(** ** Stage 4 *)

Lemma label_fit_transform_len : forall s,
    series_len (label_fit_transform s) = series_len s.
Proof.
  intros [v | v]; simpl; unfold label_codes; now rewrite !length_map.
Qed.

Lemma ordinal_fit_transform_ok : forall cats s ranks,
    ordinal_fit_transform cats s = Ok ranks ->
    exists v, s = StrSeries v /\ v <> [] /\
              (forall x, In x v -> In x cats) /\
              ranks = NumSeries (map (fun x => Qc_of_nat (index_of String.compare x cats)) v).
Proof.
  intros cats s ranks H. destruct s as [v | v]; [discriminate |].
  destruct v as [| s0 v0]; [discriminate |].
  remember (s0 :: v0) as v eqn:Hv. unfold ordinal_fit_transform in H.
  rewrite Hv in H. rewrite <- Hv in H.
  destruct (forallb (fun x => mem x cats) v) eqn:E; [| discriminate].
  inversion H. exists v. repeat split.
  - subst v. discriminate.
  - intros x Hx. rewrite forallb_forall in E. apply mem_In. now apply E.
Qed.

Lemma ordinal_fit_transform_succeeds : forall cats v,
    v <> [] -> (forall x, In x v -> In x cats) ->
    ordinal_fit_transform cats (StrSeries v)
    = Ok (NumSeries (map (fun x => Qc_of_nat (index_of String.compare x cats)) v)).
Proof.
  intros cats v Hne Hall. destruct v as [| s0 v0]; [congruence |].
  unfold ordinal_fit_transform.
  assert (E : forallb (fun x => mem x cats) (s0 :: v0) = true).
  { apply forallb_forall. intros x Hx. apply mem_In. now apply Hall. }
  now rewrite E.
Qed.

(** X4: on a table whose columns are as long as its index,
    [encode_features] raises [KeyError] when [Type] is missing,
    [ValueError] when [Type] is numeric or the table has no rows, and, when
    [Type] holds only ["L"], ["M"], ["H"], [KeyError] when [Failure Type]
    is missing; otherwise it succeeds. *)
Theorem encode_features_outcome :
  forall df : DataFrame,
    aligned df = true ->
    (has_column df "Type" = false ->
     encode_features df = Err (KeyError ["Type"])) /\
    (forall v, getitem df "Type" = Ok (NumSeries v) ->
               encode_features df = Err ValueError) /\
    (nrows df = 0 -> has_column df "Type" = true ->
     encode_features df = Err ValueError) /\
    (forall v, getitem df "Type" = Ok (StrSeries v) -> v <> [] ->
               (forall s, In s v -> In s type_categories) ->
               (has_column df "Failure Type" = false ->
                encode_features df = Err (KeyError ["Failure Type"])) /\
               (has_column df "Failure Type" = true ->
                exists out, encode_features df = Ok out)).
Proof.
  intros df Hal. split; [| split; [| split]].
  - intros Hc. unfold encode_features. now rewrite (getitem_missing _ _ Hc).
  - intros v Hv. unfold encode_features. now rewrite Hv.
  - intros Hn Hc. destruct (getitem_has _ _ Hc) as [s Hs].
    unfold encode_features. rewrite Hs.
    pose proof (aligned_getitem _ _ _ Hal Hs) as Hl. rewrite Hn in Hl.
    destruct s as [v | v]; [reflexivity |].
    destruct v; [reflexivity | discriminate].
  - intros v Hv Hne Hall.
    destruct (setitem_succeeds df "Type"
                (NumSeries (map (fun x => Qc_of_nat
                   (index_of String.compare x type_categories)) v))) as [df1 H1].
    { simpl. rewrite length_map. exact (aligned_getitem _ _ _ Hal Hv). }
    assert (Hstart : encode_features df =
              (failure <- getitem df1 "Failure Type" ;;
               setitem df1 "type_of_failure" (label_fit_transform failure))).
    { unfold encode_features. rewrite Hv. cbn [bind].
      rewrite (ordinal_fit_transform_succeeds _ v Hne Hall). cbn [bind].
      now rewrite H1. }
    rewrite Hstart, (getitem_setitem_other _ _ _ _ _ H1) by reflexivity.
    split.
    + intros Hc. now rewrite (getitem_missing _ _ Hc).
    + intros Hc. destruct (getitem_has _ _ Hc) as [f Hf]. rewrite Hf. cbn [bind].
      apply setitem_succeeds.
      rewrite label_fit_transform_len, (setitem_nrows _ _ _ _ H1).
      exact (aligned_getitem _ _ _ Hal Hf).
Qed.

Lemma encode_features_outcome_witness :
  (exists out, encode_features celsius_df = Ok out) /\
  encode_features encoded_df = Err ValueError.
Proof.
  split.
  - apply (proj2 (proj2 (proj2 (encode_features_outcome celsius_df eq_refl)))
             ["M"; "L"; "L"; "H"; "L"; "M"]).
    + reflexivity.
    + discriminate.
    + simpl. intuition.
    + reflexivity.
  - apply (proj1 (proj2 (encode_features_outcome encoded_df eq_refl))
             (map Qc_of_nat [1; 0; 0; 2; 0; 1])).
    reflexivity.
Defined.

(** X5: the codes written to [type_of_failure] can be decoded: with
    [classes] the distinct strings of [Failure Type] in increasing order,
    the code of each row is the position of its string in [classes], and
    every position of [classes] is the code of some row (the codes are
    exactly [0 .. k-1] for [k] distinct strings). *)
Theorem encode_features_codes_decode :
  forall (df out : DataFrame) (v : list string),
    encode_features df = Ok out ->
    getitem df "Failure Type" = Ok (StrSeries v) ->
    exists classes codes,
      getitem out "type_of_failure" = Ok (NumSeries (map Qc_of_nat codes)) /\
      increasing String.compare classes /\
      (forall s, In s classes <-> In s v) /\
      (forall i s, nth_error v i = Some s ->
         exists c, nth_error codes i = Some c /\ nth_error classes c = Some s) /\
      (forall c, In c codes <-> c < length classes).
Proof.
  intros df out v H Hv. apply encode_features_steps in H.
  destruct H as [typ [ranks [df1 [failure [_ [_ [_ [Hf Hout]]]]]]]].
  rewrite Hv in Hf. inversion Hf; subst failure. clear Hf.
  set (classes := unique_sorted String.compare v).
  assert (Hinc : increasing String.compare classes)
    by (apply increasing_unique_sorted; exact string_order).
  assert (Hin : forall s, In s classes <-> In s v)
    by (intros s; apply (In_unique_sorted String.compare)).
  exists classes, (label_codes String.compare v).
  split; [exact (getitem_setitem_same _ _ _ _ Hout) |].
  split; [exact Hinc |]. split; [exact Hin |]. split.
  - intros i s Hi. exists (index_of String.compare s classes). split.
    + unfold label_codes. now rewrite nth_error_map, Hi.
    + apply (index_of_nth String.compare). apply Hin. eapply nth_error_In; eauto.
  - intros c. unfold label_codes. rewrite in_map_iff. split.
    + intros [s [<- Hs]]. apply (index_of_bound String.compare). now apply Hin.
    + intros Hc. destruct (nth_error classes c) as [s |] eqn:Es.
      * exists s. split; [| apply Hin; eapply nth_error_In; eauto].
        pose proof (increasing_NoDup String.compare classes Hinc) as Hnd.
        rewrite NoDup_nth_error in Hnd. symmetry. apply Hnd; [exact Hc |].
        rewrite Es. symmetry. apply (index_of_nth String.compare).
        eapply nth_error_In; eauto.
      * apply nth_error_None in Es. lia.
Qed.

Lemma encode_features_codes_decode_witness :
  exists classes codes,
    getitem encoded_df "type_of_failure" = Ok (NumSeries (map Qc_of_nat codes)) /\
    increasing String.compare classes /\
    (forall s, In s classes <->
               In s ["No Failure"; "No Failure"; "Power Failure"; "No Failure";
                     "Heat Dissipation Failure"; "Power Failure"]) /\
    (forall i s,
        nth_error ["No Failure"; "No Failure"; "Power Failure"; "No Failure";
                   "Heat Dissipation Failure"; "Power Failure"] i = Some s ->
        exists c, nth_error codes i = Some c /\ nth_error classes c = Some s) /\
    (forall c, In c codes <-> c < length classes).
Proof.
  apply (encode_features_codes_decode celsius_df encoded_df).
  - vm_compute. reflexivity.
  - reflexivity.
Defined.

(** X6: a successful [encode_features] changes no column other than [Type]
    and [type_of_failure] (the strings of [Failure Type] stay in the
    table); the columns keep their order and a new [type_of_failure]
    column comes last. *)
Theorem encode_features_frame :
  forall df out : DataFrame,
    encode_features df = Ok out ->
    (forall name, name <> "Type" -> name <> "type_of_failure" ->
                  getitem out name = getitem df name) /\
    names out = (if has_column df "type_of_failure" then names df
                 else names df ++ ["type_of_failure"]).
Proof.
  intros df out H. apply encode_features_steps in H.
  destruct H as [typ [ranks [df1 [failure [Htyp [_ [Hdf1 [_ Hout]]]]]]]].
  split.
  - intros name Ht Hl.
    rewrite (getitem_setitem_other _ _ _ _ _ Hout) by now apply String.eqb_neq.
    apply (getitem_setitem_other _ _ _ _ _ Hdf1). now apply String.eqb_neq.
  - rewrite (setitem_names _ _ _ _ Hout).
    rewrite (has_column_setitem _ _ _ _ _ Hdf1).
    change ("type_of_failure" =? "Type")%string with false. rewrite orb_false_r.
    rewrite (setitem_names _ _ _ _ Hdf1), (getitem_ok_has _ _ _ Htyp).
    reflexivity.
Qed.

Lemma encode_features_frame_witness :
  getitem encoded_df "Failure Type" = getitem celsius_df "Failure Type" /\
  names encoded_df = names celsius_df ++ ["type_of_failure"].
Proof.
  destruct (encode_features_frame celsius_df encoded_df) as [Hf Hn].
  - vm_compute. reflexivity.
  - split; [apply Hf; discriminate | rewrite Hn; reflexivity].
Defined.

(** X7: [encode_features] cannot be run twice: after a successful run the
    [Type] column is numeric, and a second run raises [ValueError]. *)
Theorem encode_features_twice_fails :
  forall df out : DataFrame,
    encode_features df = Ok out -> encode_features out = Err ValueError.
Proof.
  intros df out H. apply encode_features_steps in H.
  destruct H as [typ [ranks [df1 [failure [_ [Hr [Hdf1 [_ Hout]]]]]]]].
  apply ordinal_fit_transform_ok in Hr. destruct Hr as [v [_ [_ [_ ->]]]].
  unfold encode_features.
  rewrite (getitem_setitem_other _ _ _ _ _ Hout) by reflexivity.
  now rewrite (getitem_setitem_same _ _ _ _ Hdf1).
Qed.

Lemma encode_features_twice_fails_witness :
  encode_features encoded_df = Err ValueError.
Proof.
  apply (encode_features_twice_fails celsius_df encoded_df).
  vm_compute. reflexivity.
Defined.

(** ** Stage 5 *)









Lemma Forall2_in_left : forall (A B : Type) (R : A -> B -> Prop) l1 l2 b,
    Forall2 R l1 l2 -> In b l2 -> exists a, In a l1 /\ R a b.
Proof.
  intros A B R l1 l2 b HF. induction HF as [| x y l1 l2 Hxy HF IH]; intros Hin.
  - destruct Hin.
  - destruct Hin as [<- | Hin].
    + exists x. split; [now left | exact Hxy].
    + destruct (IH Hin) as [a [Ha HR]]. exists a. split; [now right | exact HR].
Qed.




















(** ** Stage 6 *)

Lemma list_sum_cons : forall (a : nat) (l : list nat),
    list_sum (a :: l) = a + list_sum l.
Proof. reflexivity. Qed.

Section BalancedInput.
Context {A : Type} (cmp : A -> A -> comparison) `{TotalOrder A cmp}.
Context {G : Type} `{RandomSource G}.

Lemma unique_sorted_single : forall v c,
    (forall x, In x v -> x = c) -> length (unique_sorted cmp v) <= 1.
Proof.
  intros v c Hall.
  assert (Hcases : unique_sorted cmp v = [] \/ unique_sorted cmp v = [c]).
  { induction v as [| x v IH]; [now left |].
    assert (Hx : x = c) by (apply Hall; now left). subst x.
    cbn [unique_sorted fold_right]. fold (unique_sorted cmp v).
    destruct IH as [-> | ->]; [intros x Hx; apply Hall; now right | |].
    - now right.
    - right. cbn [insert]. now rewrite (cmp_refl cmp). }
  destruct Hcases as [-> | ->]; simpl; lia.
Qed.

Lemma bootstrap_zero : forall y strategy g,
    (forall c n, In (c, n) strategy -> n = 0) ->
    bootstrap cmp y strategy g = ([], g).
Proof.
  intros y strategy. induction strategy as [| [c n] r IH]; intros g Hz;
    [reflexivity |].
  assert (Hn : n = 0) by (apply (Hz c); now left). subst n.
  cbn [bootstrap choice]. rewrite IH; [reflexivity |].
  intros c' n' Hin. apply (Hz c'). now right.
Qed.

Lemma strategy_zero : forall y,
    (forall c, In c y -> count cmp c y = n_sample_majority (target_stats cmp y)) ->
    forall c n,
      In (c, n) (sampling_strategy_not_majority cmp (target_stats cmp y)) -> n = 0.
Proof.
  intros y Hbal c n. unfold sampling_strategy_not_majority.
  destruct (find _ _) as [[maj m] |]; [| intros []].
  intros Hin. apply in_map_iff in Hin. destruct Hin as [[c' n'] [Heq Hin]].
  cbn [fst snd] in Heq. injection Heq as Hc Hn. apply filter_In in Hin.
  destruct Hin as [Hin _]. unfold target_stats in Hin at 1.
  apply in_map_iff in Hin. destruct Hin as [c'' [Heq' Hin]].
  injection Heq' as Hc' Hn'. subst c'' n'.
  apply (proj1 (In_unique_sorted cmp y c')) in Hin.
  rewrite (Hbal _ Hin) in Hn. lia.
Qed.

Lemma resample_indices_balanced_input : forall y g,
    2 <= length (unique_sorted cmp y) ->
    (forall c, In c y -> count cmp c y = n_sample_majority (target_stats cmp y)) ->
    resample_indices cmp y g = (Ok (seq 0 (length y)), g).
Proof.
  intros y g Hl Hbal. unfold resample_indices.
  destruct (length (unique_sorted cmp y) <=? 1) eqn:El.
  - apply Nat.leb_le in El. lia.
  - rewrite (bootstrap_zero y _ g (strategy_zero y Hbal)). now rewrite app_nil_r.
Qed.

Lemma extra_labels_classes : forall y x,
    In x (extra_labels (sampling_strategy_not_majority cmp (target_stats cmp y))) ->
    In x y.
Proof.
  intros y x Hx. unfold extra_labels in Hx. apply in_flat_map in Hx.
  destruct Hx as [[c n] [Hin Hrep]]. cbn [fst snd] in Hrep.
  apply repeat_spec in Hrep. subst x. eapply (strategy_keys cmp); eauto.
Qed.

Lemma count_indicator_zero : forall l x,
    ~ In x l -> list_sum (map (fun c => if is_eq cmp x c then 1 else 0) l) = 0.
Proof.
  induction l as [| c l IH]; intros x Hnotin; [reflexivity |].
  cbn [map]. rewrite ?list_sum_cons. destruct (is_eq cmp x c) eqn:E.
  - apply (is_eq_true cmp) in E. subst c. exfalso. apply Hnotin. now left.
  - rewrite IH; [reflexivity |]. intros Hc. apply Hnotin. now right.
Qed.

Lemma count_indicator : forall l x,
    NoDup l -> In x l ->
    list_sum (map (fun c => if is_eq cmp x c then 1 else 0) l) = 1.
Proof.
  induction l as [| c l IH]; intros x Hnd Hin; [destruct Hin |].
  inversion Hnd as [| ? ? Hnotin Hnd']; subst. cbn [map]. rewrite ?list_sum_cons.
  destruct (is_eq cmp x c) eqn:E.
  - apply (is_eq_true cmp) in E. subst c.
    now rewrite (count_indicator_zero l x Hnotin).
  - apply (is_eq_false cmp) in E. destruct Hin as [-> | Hin]; [congruence |].
    now rewrite (IH x Hnd' Hin).
Qed.

Lemma count_cons_sum : forall l x w,
    list_sum (map (fun c => count cmp c (x :: w)) l)
    = list_sum (map (fun c => if is_eq cmp x c then 1 else 0) l)
      + list_sum (map (fun c => count cmp c w) l).
Proof.
  induction l as [| c l IH]; intros x w; [reflexivity |].
  cbn [map]. rewrite !list_sum_cons, IH. unfold count. cbn [filter].
  destruct (is_eq cmp x c); cbn [length]; lia.
Qed.

(** A list whose elements all occur in the duplicate-free list [l] is as
    long as the counts of the elements of [l] in it add up to. *)
Lemma length_as_counts : forall l w,
    NoDup l -> (forall x, In x w -> In x l) ->
    length w = list_sum (map (fun c => count cmp c w) l).
Proof.
  intros l w Hnd. induction w as [| x w IH]; intros Hall.
  - cbn [length]. clear Hall. induction l as [| c l IHl]; [reflexivity |].
    cbn [map]. rewrite list_sum_cons. inversion Hnd; subst. now rewrite <- IHl.
  - cbn [length]. rewrite IH by (intros z Hz; apply Hall; now right).
    rewrite count_cons_sum, (count_indicator l x Hnd) by (apply Hall; now left).
    reflexivity.
Qed.

Lemma resampled_length : forall y,
    length (y ++ extra_labels (sampling_strategy_not_majority cmp (target_stats cmp y)))
    = length (unique_sorted cmp y) * n_sample_majority (target_stats cmp y).
Proof.
  intros y.
  set (w := y ++ extra_labels _).
  rewrite (length_as_counts (unique_sorted cmp y) w).
  - assert (Hconst : forall l, (forall c, In c l -> In c y) ->
              list_sum (map (fun c => count cmp c w) l)
              = length l * n_sample_majority (target_stats cmp y)).
    { induction l as [| c l IHl]; intros Hl; [reflexivity |].
      cbn [map length]. rewrite list_sum_cons. rewrite IHl by (intros z Hz; apply Hl; now right).
      unfold w. rewrite (balanced_counts cmp y c) by (apply Hl; now left).
      simpl. reflexivity. }
    apply Hconst. intros c Hc. now apply (In_unique_sorted cmp).
  - apply (increasing_NoDup cmp), increasing_unique_sorted; auto.
  - intros x Hx. apply (In_unique_sorted cmp). unfold w in Hx.
    apply in_app_or in Hx. destruct Hx as [Hx | Hx]; [exact Hx |].
    now apply extra_labels_classes.
Qed.
End BalancedInput.

Lemma take_all : forall s, take s (seq 0 (series_len s)) = s.
Proof.
  intros [v | v]; cbn [take series_len]; now rewrite take_list_seq.
Qed.

Lemma take_rows_all : forall X,
    aligned X = true -> take_rows X (seq 0 (nrows X)) = X.
Proof.
  intros [n cols] Hal. unfold take_rows, aligned in *. cbn [nrows columns] in *.
  rewrite length_seq. f_equal.
  induction cols as [| [name s] cols IH]; [reflexivity |].
  cbn [forallb snd] in Hal. apply andb_true_iff in Hal. destruct Hal as [Hs Hal].
  apply Nat.eqb_eq in Hs. cbn [map fst snd]. rewrite (IH Hal).
  rewrite <- Hs at 1. now rewrite take_all.
Qed.

Lemma feature_columns_aligned : forall df,
    aligned df = true ->
    aligned (mkDataFrame (nrows df) (feature_columns df)) = true.
Proof.
  intros df Hal. unfold aligned, feature_columns. cbn [nrows columns].
  now apply filter_aligned.
Qed.

Lemma max_list_const : forall l m,
    l <> [] -> (forall n, In n l -> n = m) -> fold_right Nat.max 0 l = m.
Proof.
  intros l m Hne Hall. apply Hall. now apply max_list_attained.
Qed.

Section BalancedTables.
Context {G : Type} `{RandomSource G}.

Lemma fit_resample_balanced_input : forall X y g a b,
    aligned X = true ->
    classification_target y = true ->
    series_len y = nrows X ->
    In a (series_cells y) -> In b (series_cells y) -> a <> b ->
    balanced y ->
    fit_resample X y g = (Ok (X, y), g).
Proof.
  intros X y g a b Hal Hct Hl Ha Hb Hne Hbal. unfold fit_resample.
  rewrite Hct, Hl, Nat.eqb_refl. cbn [negb].
  assert (Hn : nrows X <> 0).
  { rewrite <- Hl, <- series_len_cells. destruct (series_cells y); [destruct Ha |].
    discriminate. }
  apply Nat.eqb_neq in Hn. rewrite Hn.
  assert (Hidx : forall n, n = nrows X ->
            (Ok (take_rows X (seq 0 n), take y (seq 0 n)), g) = (Ok (X, y), g)).
  { intros n ->. rewrite (take_rows_all X Hal). rewrite <- Hl at 1.
    now rewrite take_all. }
  destruct y as [v | v]; cbn [series_cells series_len] in *;
    apply in_map_iff in Ha; apply in_map_iff in Hb;
    destruct Ha as [a' [<- Ha]]; destruct Hb as [b' [<- Hb]].
  - rewrite (resample_indices_balanced_input Qccompare v g).
    + now apply Hidx.
    + apply (two_classes Qccompare v a' b'); auto. congruence.
    + intros c Hc. rewrite <- count_cells_num, <- max_class_count_num.
      apply Hbal. cbn [series_cells]. now apply in_map.
  - rewrite (resample_indices_balanced_input String.compare v g).
    + now apply Hidx.
    + apply (two_classes String.compare v a' b'); auto. congruence.
    + intros c Hc. rewrite <- count_cells_str, <- max_class_count_str.
      apply Hbal. cbn [series_cells]. now apply in_map.
Qed.

Lemma oversample_data_balanced_input : forall df y g a b,
    aligned df = true ->
    getitem df label = Ok y ->
    classification_target y = true ->
    In a (series_cells y) -> In b (series_cells y) -> a <> b ->
    balanced y ->
    oversample_data df g
    = (Ok (mkDataFrame (nrows df) (feature_columns df ++ [(label, y)])), g).
Proof.
  intros df y g a b Hal Hy Hct Ha Hb Hne Hbal. unfold oversample_data.
  rewrite drop_succeeds.
  2:{ intros l [<- | []]. eapply getitem_ok_has; eauto. }
  unfold label in Hy. rewrite Hy.
  change (mkDataFrame (nrows df)
            (filter (fun c => negb (mem (fst c) ["type_of_failure"])) (columns df)))
    with (mkDataFrame (nrows df) (feature_columns df)).
  rewrite (fit_resample_balanced_input _ y g a b); auto.
  - now apply feature_columns_aligned.
  - cbn [nrows]. eapply aligned_getitem; eauto.
Qed.

Lemma resample_indices_two_classes :
  forall (A : Type) (cmp : A -> A -> comparison), TotalOrder cmp ->
  forall y g idx g',
    resample_indices cmp y g = (Ok idx, g') ->
    exists a b, In a y /\ In b y /\ a <> b.
Proof.
  intros A cmp Hord y g idx g' Hr. apply (resample_indices_inv cmp) in Hr.
  destruct Hr as [Hl _].
  pose proof (increasing_NoDup cmp _ (increasing_unique_sorted cmp y)) as Hnd.
  destruct (unique_sorted cmp y) as [| a [| b l]] eqn:Eu; cbn [length] in Hl; try lia.
  exists a, b.
  assert (Ha : In a (unique_sorted cmp y)) by (rewrite Eu; now left).
  assert (Hb : In b (unique_sorted cmp y)) by (rewrite Eu; right; now left).
  apply (proj1 (In_unique_sorted cmp y a)) in Ha.
  apply (proj1 (In_unique_sorted cmp y b)) in Hb.
  split; [exact Ha |]. split; [exact Hb |].
  intros Heq. subst b. inversion Hnd as [| ? ? Hnotin _]. apply Hnotin. now left.
Qed.

Lemma oversample_data_two_classes : forall df g out g',
    oversample_data df g = (Ok out, g') ->
    exists y a b,
      getitem df label = Ok y /\
      In a (series_cells y) /\ In b (series_cells y) /\ a <> b.
Proof.
  intros df g out g' Ho. unfold oversample_data in Ho.
  destruct (drop df ["type_of_failure"]) as [X | e]; [| discriminate].
  destruct (getitem df "type_of_failure") as [y | e] eqn:Ey; [| discriminate].
  exists y. unfold fit_resample in Ho.
  destruct (negb (classification_target y)); [discriminate |].
  destruct (negb (series_len y =? nrows X)); [discriminate |].
  destruct (nrows X =? 0); [discriminate |].
  destruct y as [v | v].
  - destruct (resample_indices Qccompare v g) as [[idx | e] g1] eqn:Er;
      [| discriminate].
    destruct (resample_indices_two_classes _ Qccompare Qc_order _ _ _ _ Er)
      as [a [b [Ha [Hb Hne]]]].
    exists (CNum a), (CNum b). cbn [series_cells].
    repeat split; auto using in_map. congruence.
  - destruct (resample_indices String.compare v g) as [[idx | e] g1] eqn:Er;
      [| discriminate].
    destruct (resample_indices_two_classes _ String.compare string_order _ _ _ _ Er)
      as [a [b [Ha [Hb Hne]]]].
    exists (CStr a), (CStr b). cbn [series_cells].
    repeat split; auto using in_map. congruence.
Qed.

Lemma resampled_labels_cells : forall y c,
    In c (series_cells (resampled_labels y)) <-> In c (series_cells y).
Proof.
  intros [v | v] c; cbn [resampled_labels series_cells]; rewrite map_app, in_app_iff;
    (split; [intros [Hc | Hc]; [exact Hc |] | intros Hc; now left]);
    apply in_map_iff in Hc; destruct Hc as [x [<- Hx]]; apply in_map.
  - now apply (extra_labels_classes Qccompare) in Hx.
  - now apply (extra_labels_classes String.compare) in Hx.
Qed.

Lemma resampled_labels_target : forall y,
    classification_target y = true ->
    classification_target (resampled_labels y) = true.
Proof.
  intros [v | v] Hct; [| reflexivity]. cbn [resampled_labels classification_target] in *.
  rewrite forallb_forall in *. intros x Hx. apply in_app_or in Hx.
  destruct Hx as [Hx | Hx]; [auto |].
  apply Hct. now apply (extra_labels_classes Qccompare) in Hx.
Qed.

Lemma resampled_labels_are_balanced : forall y, balanced (resampled_labels y).
Proof.
  intros y c Hc0. pose proof (proj1 (resampled_labels_cells y c) Hc0) as Hc.
  rewrite (resampled_labels_balanced y c Hc). symmetry.
  unfold max_class_count at 1. apply max_list_const.
  - intros Hz. apply map_eq_nil in Hz. rewrite Hz in Hc0. destruct Hc0.
  - intros n Hn. apply in_map_iff in Hn. destruct Hn as [c' [<- Hc']].
    apply (proj1 (resampled_labels_cells y c')) in Hc'.
    now apply resampled_labels_balanced.
Qed.
End BalancedTables.

Lemma single_class_not_resampled :
  forall (G : Type) (RS : RandomSource G) (y : Series) (c : cell) (g : G),
    (forall x, In x (series_cells y) -> x = c) ->
    match y with
    | NumSeries v => resample_indices Qccompare v g
    | StrSeries v => resample_indices String.compare v g
    end = (Err ValueError, g).
Proof.
  intros G RS y c g Hall. destruct y as [v | v]; unfold resample_indices.
  - destruct c as [q | s].
    + assert (Hq : forall x, In x v -> x = q).
      { intros x Hx. specialize (Hall (CNum x) (in_map CNum _ _ Hx)). congruence. }
      now rewrite (proj2 (Nat.leb_le _ _) (unique_sorted_single Qccompare v q Hq)).
    + destruct v as [| x v]; [reflexivity |].
      specialize (Hall (CNum x) (or_introl eq_refl)). discriminate.
  - destruct c as [q | s].
    + destruct v as [| x v]; [reflexivity |].
      specialize (Hall (CStr x) (or_introl eq_refl)). discriminate.
    + assert (Hs : forall x, In x v -> x = s).
      { intros x Hx. specialize (Hall (CStr x) (in_map CStr _ _ Hx)). congruence. }
      now rewrite (proj2 (Nat.leb_le _ _) (unique_sorted_single String.compare v s Hs)).
Qed.

Lemma oversample_data_single_class :
  forall (G : Type) (RS : RandomSource G) (df : DataFrame) (g : G)
         (y : Series) (c : cell),
    getitem df label = Ok y ->
    (forall x, In x (series_cells y) -> x = c) ->
    oversample_data df g = (Err ValueError, g).
Proof.
  intros G RS df g y c Hy Hall. unfold oversample_data.
  rewrite drop_succeeds
    by (intros l [<- | []]; eapply getitem_ok_has; eauto).
  unfold label in Hy. rewrite Hy. unfold fit_resample.
  destruct (negb (classification_target y)); [reflexivity |].
  destruct (negb (series_len y =? _)); [reflexivity |].
  destruct (_ =? 0); [reflexivity |].
  now rewrite (single_class_not_resampled G RS y c g Hall).
Qed.

(** X11: [oversample_data] raises [KeyError] when the table has no
    [type_of_failure] column and [ValueError] when that column holds a
    single class (or no row) or fractional numbers; whenever it raises, the
    generator is left as it was (no draw has been made). *)
Theorem oversample_data_failure :
  forall (G : Type) (RS : RandomSource G) (df : DataFrame) (g : G),
    (has_column df "type_of_failure" = false ->
     oversample_data df g = (Err (KeyError ["type_of_failure"]), g)) /\
    (forall y c, getitem df "type_of_failure" = Ok y ->
                 (forall x, In x (series_cells y) -> x = c) ->
                 oversample_data df g = (Err ValueError, g)) /\
    (forall y, getitem df "type_of_failure" = Ok y ->
               classification_target y = false ->
               oversample_data df g = (Err ValueError, g)) /\
    (forall e g', oversample_data df g = (Err e, g') -> g' = g).
Proof.
  intros G RS df g. split; [| split; [| split]].
  - intros Hc. unfold oversample_data, drop. cbn [filter]. now rewrite Hc.
  - intros y c Hy Hall. exact (oversample_data_single_class G RS df g y c Hy Hall).
  - intros y Hy Hct. unfold oversample_data.
    rewrite drop_succeeds
      by (intros l [<- | []]; eapply getitem_ok_has; eauto).
    rewrite Hy. unfold fit_resample. now rewrite Hct.
  - intros e g' Ho. unfold oversample_data in Ho.
    destruct (drop df ["type_of_failure"]) as [X | e0]; [| now inversion Ho].
    destruct (getitem df "type_of_failure") as [y | e0]; [| now inversion Ho].
    unfold fit_resample in Ho.
    destruct (negb (classification_target y)); [now inversion Ho |].
    destruct (negb (series_len y =? nrows X)); [now inversion Ho |].
    destruct (nrows X =? 0); [now inversion Ho |].
    destruct y as [v | v].
    + destruct (resample_indices Qccompare v g) as [[idx | e1] g1] eqn:Er;
        [discriminate |].
      apply (resample_indices_err Qccompare) in Er. destruct Er as [_ ->].
      now inversion Ho.
    + destruct (resample_indices String.compare v g) as [[idx | e1] g1] eqn:Er;
        [discriminate |].
      apply (resample_indices_err String.compare) in Er. destruct Er as [_ ->].
      now inversion Ho.
Qed.

Lemma oversample_data_failure_witness :
  oversample_data normalized_df 4 = (Err (KeyError ["type_of_failure"]), 4) /\
  oversample_data single_class_df 4 = (Err ValueError, 4).
Proof.
  split.
  - apply (proj1 (oversample_data_failure nat CounterSource normalized_df 4)).
    reflexivity.
  - apply (proj1 (proj2 (oversample_data_failure nat CounterSource single_class_df 4))
             (NumSeries (map int [1; 1; 1]%Z)) (CNum (int 1))).
    + reflexivity.
    + intros x Hx. simpl in Hx. destruct Hx as [<- | [<- | [<- | []]]]; reflexivity.
Defined.

Lemma NoDup_map_injective : forall (A B : Type) (f : A -> B) (l : list A),
    (forall a b, f a = f b -> a = b) -> NoDup l -> NoDup (map f l).
Proof.
  intros A B f l Hinj Hnd. induction Hnd as [| x l Hnotin Hnd IH]; [constructor |].
  cbn [map]. constructor; [| exact IH].
  intros Hin. apply in_map_iff in Hin. destruct Hin as [y [Hy Hin]].
  apply Hinj in Hy. now subst.
Qed.

(** X12: the table [oversample_data] returns has as many rows as the
    number of classes of the input times the size of its largest class. *)
Theorem oversample_data_row_count :
  forall (G : Type) (RS : RandomSource G) (df out : DataFrame) (g g' : G),
    aligned df = true ->
    oversample_data df g = (Ok out, g') ->
    exists (y : Series) (classes : list cell),
      getitem df "type_of_failure" = Ok y /\
      NoDup classes /\
      (forall c, In c classes <-> In c (series_cells y)) /\
      nrows out = length classes * max_class_count y.
Proof.
  intros G RS df out g g' Hal Ho.
  destruct (oversample_data_shape df g out g' Hal Ho)
    as [y [idx [Hy [Hlab [_ [_ [Hal' _]]]]]]].
  pose proof (aligned_getitem _ _ _ Hal' Hlab) as Hlen.
  exists y. destruct y as [v | v].
  - exists (map CNum (unique_sorted Qccompare v)). split; [exact Hy |].
    split; [| split].
    + apply NoDup_map_injective.
      * intros a b Hab. now inversion Hab.
      * apply (increasing_NoDup Qccompare), increasing_unique_sorted.
        exact Qc_order.
    + intros c. cbn [series_cells]. rewrite !in_map_iff.
      split; intros [x [Hx Hin]]; exists x; split; auto;
        now apply (In_unique_sorted Qccompare).
    + rewrite <- Hlen. cbn [resampled_labels series_len].
      rewrite (resampled_length Qccompare), length_map, max_class_count_num.
      reflexivity.
  - exists (map CStr (unique_sorted String.compare v)). split; [exact Hy |].
    split; [| split].
    + apply NoDup_map_injective.
      * intros a b Hab. now inversion Hab.
      * apply (increasing_NoDup String.compare), increasing_unique_sorted.
        exact string_order.
    + intros c. cbn [series_cells]. rewrite !in_map_iff.
      split; intros [x [Hx Hin]]; exists x; split; auto;
        now apply (In_unique_sorted String.compare).
    + rewrite <- Hlen. cbn [resampled_labels series_len].
      rewrite (resampled_length String.compare), length_map, max_class_count_str.
      reflexivity.
Qed.

Lemma oversample_data_row_count_witness :
  exists (y : Series) (classes : list cell),
    getitem scaled_df "type_of_failure" = Ok y /\
    NoDup classes /\
    (forall c, In c classes <-> In c (series_cells y)) /\
    nrows balanced_df = length classes * max_class_count y.
Proof.
  apply (oversample_data_row_count nat CounterSource scaled_df balanced_df 0 3).
  - reflexivity.
  - vm_compute. reflexivity.
Defined.

Lemma feature_columns_resampled : forall n df idx y,
    feature_columns
      (mkDataFrame n
         (map (fun c => (fst c, take (snd c) idx)) (feature_columns df)
          ++ [(label, y)]))
    = map (fun c => (fst c, take (snd c) idx)) (feature_columns df).
Proof.
  intros n df idx y. unfold feature_columns at 1. cbn [columns].
  rewrite filter_app.
  replace (filter (fun c => negb (mem (fst c) [label])) [(label, y)])
    with (@nil (string * Series)) by reflexivity.
  rewrite app_nil_r. unfold feature_columns.
  induction (columns df) as [| [c s] cols IH]; [reflexivity |].
  cbn [filter fst]. destruct (negb (mem c [label])) eqn:E; [| exact IH].
  cbn [map filter fst snd]. rewrite E. now rewrite IH.
Qed.

Lemma resampled_names : forall n df idx y,
    names (mkDataFrame n
             (map (fun c => (fst c, take (snd c) idx)) (feature_columns df)
              ++ [(label, y)]))
    = filter (fun n => negb (String.eqb n "type_of_failure")) (names df)
      ++ ["type_of_failure"].
Proof.
  intros n df idx y. unfold names at 1. cbn [columns].
  rewrite map_app, map_map. cbn [fst map]. f_equal.
  exact (feature_column_names df).
Qed.

Lemma filter_twice : forall (A : Type) (p : A -> bool) (l : list A),
    filter p (filter p l) = filter p l.
Proof.
  intros A p l. induction l as [| x l IH]; [reflexivity |].
  cbn [filter]. destruct (p x) eqn:E; [| exact IH].
  cbn [filter]. rewrite E. now rewrite IH.
Qed.

(** X13: in the table [oversample_data] returns, the feature columns keep
    their labels and order and [type_of_failure] is the last column. *)
Theorem oversample_data_layout :
  forall (G : Type) (RS : RandomSource G) (df out : DataFrame) (g g' : G),
    oversample_data df g = (Ok out, g') ->
    names out =
      filter (fun n => negb (String.eqb n "type_of_failure")) (names df)
      ++ ["type_of_failure"].
Proof.
  intros G RS df out g g' Ho. apply oversample_data_inv in Ho.
  destruct Ho as [y [extra [_ [_ [_ [_ [_ [_ ->]]]]]]]].
  apply resampled_names.
Qed.

Lemma oversample_data_layout_witness :
  names balanced_df =
    ["Type"; "Rotational speed [rpm]"; "Torque [Nm]"; "Tool wear [min]";
     "Machine failure"; "Failure Type";
     "Air temperature [c]"; "Process temperature [c]"; "type_of_failure"].
Proof.
  rewrite (oversample_data_layout nat CounterSource scaled_df balanced_df 0 3).
  - reflexivity.
  - vm_compute. reflexivity.
Defined.

(** X14: on a table whose classes all have the same number of rows,
    [oversample_data] adds no row and makes no draw: it returns the same
    rows, every column holding what it held, and the generator as it was. *)
Theorem oversample_data_on_balanced :
  forall (G : Type) (RS : RandomSource G) (df : DataFrame) (g : G)
         (y : Series) (a b : cell),
    aligned df = true ->
    getitem df "type_of_failure" = Ok y ->
    classification_target y = true ->
    In a (series_cells y) -> In b (series_cells y) -> a <> b ->
    balanced y ->
    exists out,
      oversample_data df g = (Ok out, g) /\
      nrows out = nrows df /\
      forall name, getitem out name = getitem df name.
Proof.
  intros G RS df g y a b Hal Hy Hct Ha Hb Hne Hbal.
  eexists. split; [| split].
  - exact (oversample_data_balanced_input df y g a b Hal Hy Hct Ha Hb Hne Hbal).
  - reflexivity.
  - intros name. unfold getitem. cbn [columns]. rewrite lookup_app.
    unfold feature_columns. destruct (String.eqb name label) eqn:En.
    + apply String.eqb_eq in En. subst name.
      rewrite lookup_filter_dropped by reflexivity.
      unfold getitem in Hy. unfold label in *.
      destruct (lookup "type_of_failure" (columns df)); [| discriminate].
      cbn [lookup]. rewrite String.eqb_refl. congruence.
    + rewrite lookup_filter_kept by (cbn [mem existsb]; now rewrite En).
      destruct (lookup name (columns df)); [reflexivity |].
      cbn [lookup]. now rewrite En.
Qed.

Lemma oversample_data_on_balanced_witness :
  exists out,
    oversample_data balanced_df 5 = (Ok out, 5) /\
    nrows out = nrows balanced_df /\
    forall name, getitem out name = getitem balanced_df name.
Proof.
  apply (oversample_data_on_balanced nat CounterSource balanced_df 5
           (NumSeries (map Qc_of_nat [1; 1; 2; 1; 0; 2; 0; 0; 2]))
           (CNum (Qc_of_nat 1)) (CNum (Qc_of_nat 2))).
  - reflexivity.
  - reflexivity.
  - reflexivity.
  - simpl. left. reflexivity.
  - simpl. right. right. left. reflexivity.
  - intros Heq. inversion Heq.
  - intros c Hc. simpl in Hc.
    repeat (destruct Hc as [<- | Hc]; [vm_compute; reflexivity |]). destruct Hc.
Defined.

(** X15: a second [oversample_data] changes nothing: run on the table a
    successful run returned, from any generator state, it returns that
    table and leaves the generator as it was. *)
Theorem oversample_data_twice :
  forall (G : Type) (RS : RandomSource G) (df out : DataFrame) (g g' : G),
    aligned df = true ->
    oversample_data df g = (Ok out, g') ->
    forall g2 : G, oversample_data out g2 = (Ok out, g2).
Proof.
  intros G RS df out g g' Hal Ho g2.
  destruct (oversample_data_two_classes df g out g' Ho)
    as [y [a [b [Hy [Ha [Hb Hne]]]]]].
  destruct (oversample_data_shape df g out g' Hal Ho)
    as [y0 [idx [Hy0 [Hlab [_ [_ [Hal' _]]]]]]].
  rewrite Hy in Hy0. inversion Hy0; subst y0. clear Hy0.
  apply oversample_data_inv in Ho.
  destruct Ho as [y1 [extra [Hy1 [Hct [_ [_ [_ [_ Hout]]]]]]]].
  rewrite Hy in Hy1. inversion Hy1; subst y1. clear Hy1.
  rewrite (oversample_data_balanced_input out (resampled_labels y) g2 a b Hal' Hlab).
  - f_equal. f_equal. rewrite Hout. cbn [nrows].
    now rewrite feature_columns_resampled.
  - now apply resampled_labels_target.
  - now apply resampled_labels_cells.
  - now apply resampled_labels_cells.
  - exact Hne.
  - apply resampled_labels_are_balanced.
Qed.

Lemma oversample_data_twice_witness :
  oversample_data balanced_df 8 = (Ok balanced_df, 8).
Proof.
  apply (oversample_data_twice nat CounterSource scaled_df balanced_df 0 3).
  - reflexivity.
  - vm_compute. reflexivity.
Defined.

(** ** Stage 7 *)

Section SplitFacts.
Context {G : Type} `{RandomSource G}.

Lemma train_test_split_inv : forall df g parts g',
    train_test_split df g = (Ok parts, g') ->
    exists y perm,
      getitem df label = Ok y /\
      series_len y = nrows df /\
      Permutation perm (seq 0 (nrows df)) /\
      nrows df - (nrows df + 4) / 5 <> 0 /\
      parts = mkArtifacts
                (take_rows (mkDataFrame (nrows df) (feature_columns df))
                   (skipn ((nrows df + 4) / 5) perm))
                (take_rows (mkDataFrame (nrows df) (feature_columns df))
                   (firstn ((nrows df + 4) / 5) perm))
                (take y (skipn ((nrows df + 4) / 5) perm))
                (take y (firstn ((nrows df + 4) / 5) perm)).
Proof.
  intros df g parts g' H0. unfold train_test_split in H0. injection H0 as Hr Hg.
  bind_inv Hr X HX. apply drop_label_names in HX. bind_inv Hr y Hy.
  unfold sk_train_test_split in Hr.
  bind_inv Hr u Hlen. bind_inv Hr sizes Hsizes. destruct sizes as [n_train n_test].
  unfold validate_shuffle_split in Hsizes.
  assert (Hrows : nrows X = nrows df) by (rewrite HX; reflexivity).
  rewrite Hrows in *. set (n := nrows df) in *. set (k := (n + 4) / 5) in *.
  destruct (n - k =? 0) eqn:Ek; [discriminate |]. apply Nat.eqb_neq in Ek.
  injection Hsizes as Ht1 Ht2. subst n_train n_test.
  destruct (series_len y =? n) eqn:El; [| discriminate]. apply Nat.eqb_eq in El.
  set (perm := fst (permutation (seed 42) n)) in *.
  pose proof (permutation_perm (seed 42) n) as Hperm. fold perm in Hperm.
  assert (Hpl : length perm = n).
  { rewrite (Permutation_length Hperm). apply length_seq. }
  assert (Htrain : firstn (n - k) (skipn k perm) = skipn k perm).
  { apply firstn_all2. rewrite length_skipn. lia. }
  cbv zeta in Hr. fold perm in Hr. rewrite Htrain in Hr.
  injection Hr as Hparts. exists y, perm. rewrite <- HX.
  repeat split; auto.
Qed.

Lemma train_test_split_succeeds : forall df g y,
    getitem df label = Ok y -> series_len y = nrows df -> 2 <= nrows df ->
    exists parts, train_test_split df g = (Ok parts, g).
Proof.
  intros df g y Hy Hl Hn. unfold train_test_split.
  rewrite drop_succeeds by (intros l [<- | []]; eapply getitem_ok_has; eauto).
  unfold label in Hy. cbn [bind]. rewrite Hy. cbn [bind].
  unfold sk_train_test_split. cbn [nrows]. rewrite Hl, Nat.eqb_refl. cbn [bind].
  unfold validate_shuffle_split.
  assert (Hk : (nrows df + 4) / 5 < nrows df).
  { apply Nat.Div0.div_lt_upper_bound. lia. }
  destruct (nrows df - (nrows df + 4) / 5 =? 0) eqn:E.
  - apply Nat.eqb_eq in E. lia.
  - cbn [bind]. eauto.
Qed.
End SplitFacts.

(** X16: a successful [train_test_split] puts every row of the table in
    exactly one of the two parts and keeps rows whole: the row numbers
    selected for the test part followed by those selected for the train
    part are a rearrangement of all row numbers, and row [j] of a part
    holds, in every feature column and in the label, the values of the
    input row selected for it. *)
Theorem train_test_split_rows :
  forall (G : Type) (RS : RandomSource G) (df : DataFrame) (g g' : G)
         (parts : Artifacts),
    aligned df = true ->
    train_test_split df g = (Ok parts, g') ->
    exists (y : Series) (ind_test ind_train : list nat),
      getitem df "type_of_failure" = Ok y /\
      Permutation (ind_test ++ ind_train) (seq 0 (nrows df)) /\
      nrows (X_test parts) = length ind_test /\
      nrows (X_train parts) = length ind_train /\
      (forall j i, nth_error ind_test j = Some i ->
         iloc (y_test parts) j = iloc y i /\
         forall name, name <> "type_of_failure" ->
                      cell_at (X_test parts) name j = cell_at df name i) /\
      (forall j i, nth_error ind_train j = Some i ->
         iloc (y_train parts) j = iloc y i /\
         forall name, name <> "type_of_failure" ->
                      cell_at (X_train parts) name j = cell_at df name i).
Proof.
  intros G RS df g g' parts Hal Hs. apply train_test_split_inv in Hs.
  destruct Hs as [y [perm [Hy [Hl [Hperm [_ ->]]]]]].
  set (k := (nrows df + 4) / 5).
  exists y, (firstn k perm), (skipn k perm). cbn [X_test X_train y_test y_train].
  assert (Hrange : forall idx, (forall i, In i idx -> In i perm) ->
             forall i, In i idx -> i < nrows df).
  { intros idx Hsub i Hi. apply Hsub in Hi.
    apply (Permutation_in _ Hperm) in Hi. apply in_seq in Hi. lia. }
  assert (Hcell : forall idx, (forall i, In i idx -> In i perm) ->
             forall j i, nth_error idx j = Some i ->
               iloc (take y idx) j = iloc y i /\
               forall name, name <> "type_of_failure" ->
                 cell_at (take_rows (mkDataFrame (nrows df) (feature_columns df)) idx)
                         name j
                 = cell_at df name i).
  { intros idx Hsub j i Hj. split.
    - apply take_in_range; [| exact Hj]. intros i' Hi'. rewrite Hl.
      now apply (Hrange idx Hsub).
    - intros name Hne. unfold cell_at, take_rows. cbn [columns].
      rewrite lookup_map_take. unfold feature_columns.
      rewrite lookup_filter_kept.
      2:{ cbn [mem existsb]. rewrite orb_false_r. now apply String.eqb_neq. }
      destruct (lookup name (columns df)) as [s |] eqn:Es; [| reflexivity].
      cbn [option_map]. apply take_in_range; [| exact Hj].
      intros i' Hi'. rewrite (aligned_lookup _ _ _ Hal Es).
      now apply (Hrange idx Hsub). }
  split; [exact Hy |]. split; [now rewrite firstn_skipn |].
  split; [reflexivity |]. split; [reflexivity |]. split.
  - apply Hcell. intros i Hi. apply (in_firstn_skipn _ k). now left.
  - apply Hcell. intros i Hi. apply (in_firstn_skipn _ k). now right.
Qed.

Lemma train_test_split_rows_witness :
  exists (y : Series) (ind_test ind_train : list nat),
    getitem balanced_df "type_of_failure" = Ok y /\
    Permutation (ind_test ++ ind_train) (seq 0 (nrows balanced_df)) /\
    nrows (X_test sample_split) = length ind_test /\
    nrows (X_train sample_split) = length ind_train /\
    (forall j i, nth_error ind_test j = Some i ->
       iloc (y_test sample_split) j = iloc y i /\
       forall name, name <> "type_of_failure" ->
                    cell_at (X_test sample_split) name j = cell_at balanced_df name i) /\
    (forall j i, nth_error ind_train j = Some i ->
       iloc (y_train sample_split) j = iloc y i /\
       forall name, name <> "type_of_failure" ->
                    cell_at (X_train sample_split) name j = cell_at balanced_df name i).
Proof.
  apply (train_test_split_rows nat CounterSource balanced_df 0 0 sample_split).
  - reflexivity.
  - vm_compute. reflexivity.
Defined.

(** X17: on a table whose columns are as long as its index,
    [train_test_split] raises [KeyError] without a [type_of_failure]
    column and [ValueError] with fewer than two rows, and succeeds
    otherwise; when it succeeds neither part is empty and the test part is
    not larger than the train part. *)
Theorem train_test_split_outcome :
  forall (G : Type) (RS : RandomSource G) (df : DataFrame) (g : G),
    aligned df = true ->
    (has_column df "type_of_failure" = false ->
     train_test_split df g = (Err (KeyError ["type_of_failure"]), g)) /\
    (has_column df "type_of_failure" = true -> nrows df < 2 ->
     train_test_split df g = (Err ValueError, g)) /\
    (has_column df "type_of_failure" = true -> 2 <= nrows df ->
     exists parts,
       train_test_split df g = (Ok parts, g) /\
       1 <= nrows (X_test parts) /\
       nrows (X_test parts) <= nrows (X_train parts)).
Proof.
  intros G RS df g Hal. split; [| split].
  - intros Hc. unfold train_test_split, drop. cbn [filter]. now rewrite Hc.
  - intros Hc Hn. destruct (getitem_has _ _ Hc) as [y Hy].
    unfold train_test_split.
    rewrite drop_succeeds by (intros l [<- | []]; exact Hc).
    cbn [bind]. rewrite Hy. cbn [bind]. unfold sk_train_test_split. cbn [nrows].
    rewrite (aligned_getitem _ _ _ Hal Hy), Nat.eqb_refl. cbn [bind].
    unfold validate_shuffle_split.
    assert (Hz : nrows df - (nrows df + 4) / 5 = 0).
    { destruct (nrows df) as [| [| n]]; [reflexivity | reflexivity | lia]. }
    now rewrite Hz.
  - intros Hc Hn. destruct (getitem_has _ _ Hc) as [y Hy].
    destruct (train_test_split_succeeds df g y Hy (aligned_getitem _ _ _ Hal Hy) Hn)
      as [parts Hs].
    exists parts. split; [exact Hs |].
    apply train_test_split_inv in Hs.
    destruct Hs as [y' [perm [_ [_ [Hperm [_ ->]]]]]].
    cbn [X_test X_train take_rows nrows].
    assert (Hpl : length perm = nrows df).
    { rewrite (Permutation_length Hperm). apply length_seq. }
    rewrite length_firstn, length_skipn, Hpl.
    assert (Hk1 : 1 <= (nrows df + 4) / 5).
    { apply Nat.div_le_lower_bound; lia. }
    assert (Hk2 : 2 * ((nrows df + 4) / 5) <= nrows df).
    { pose proof (Nat.Div0.mul_div_le (nrows df + 4) 5) as Hm.
      destruct (Nat.le_gt_cases 6 (nrows df)) as [Hbig | Hsmall]; [lia |].
      destruct (nrows df) as [| [| [| [| [| [| n]]]]]]; try lia;
        vm_compute; lia. }
    lia.
Qed.

Lemma train_test_split_outcome_witness :
  train_test_split normalized_df 0 = (Err (KeyError ["type_of_failure"]), 0) /\
  exists parts,
    train_test_split balanced_df 0 = (Ok parts, 0) /\
    1 <= nrows (X_test parts) /\
    nrows (X_test parts) <= nrows (X_train parts).
Proof.
  split.
  - apply (proj1 (train_test_split_outcome nat CounterSource normalized_df 0 eq_refl)).
    reflexivity.
  - apply (proj2 (proj2 (train_test_split_outcome nat CounterSource balanced_df 0 eq_refl))).
    + reflexivity.
    + vm_compute. lia.
Defined.

(** ** How the stages compose *)


Lemma series_sub_num : forall s c k,
    series_sub s c = Ok (NumSeries k) ->
    exists v, s = NumSeries v /\ k = map (fun x => (x - c)%Qc) v.
Proof.
  intros [v | [| s0 v]] c k H; cbn [series_sub] in H; inversion H. eauto.
Qed.



Lemma is_integral_of_nat : forall n, is_integral (Qc_of_nat n) = true.
Proof.
  intros n. unfold is_integral, Qc_of_nat, Q2Qc. cbn [this].
  rewrite Qred_identity; [reflexivity |].
  unfold inject_Z. cbn [Qnum Qden]. apply Z.gcd_1_r.
Qed.

Lemma two_distinct_length : forall (A : Type) (l : list A) (a b : A),
    In a l -> In b l -> a <> b -> 2 <= length l.
Proof.
  intros A l a b Ha Hb Hne. destruct l as [| x [| y l]]; cbn [length]; try lia.
  - destruct Ha.
  - destruct Ha as [<- | []]. destruct Hb as [<- | []]. congruence.
Qed.

(** X19: whether [oversample_data] can run after [encode_features] and
    [scale_features] depends on the failure types alone: it succeeds, for
    every generator state, when [Failure Type] held two different strings,
    and raises [ValueError] when all rows held the same string. *)
Theorem oversample_after_encoding :
  forall (G : Type) (RS : RandomSource G)
         (df encoded scaled : DataFrame) (v : list string) (g : G),
    aligned df = true ->
    encode_features df = Ok encoded ->
    scale_features encoded = Ok scaled ->
    getitem df "Failure Type" = Ok (StrSeries v) ->
    ((exists a b, In a v /\ In b v /\ a <> b) ->
     exists out g', oversample_data scaled g = (Ok out, g')) /\
    ((exists c, forall x, In x v -> x = c) ->
     oversample_data scaled g = (Err ValueError, g)).
Proof.
  intros G RS df encoded scaled v g Hal He Hs Hv.
  assert (Hlab : getitem scaled label
                 = Ok (NumSeries (map Qc_of_nat (label_codes String.compare v)))).
  { apply scale_features_steps in Hs. destruct Hs as [X [_ [_ Hset]]].
    destruct (setitems_frame _ _ _ _ Hset) as [_ [Hother _]].
    unfold getitem. rewrite Hother.
    2:{ unfold col_to_scale, label. simpl. intuition discriminate. }
    apply encode_features_steps in He.
    destruct He as [typ [ranks [e1 [failure [_ [_ [_ [Hf Hout]]]]]]]].
    rewrite Hv in Hf. inversion Hf; subst failure. unfold label.
    now rewrite (setitem_lookup_same _ _ _ _ Hout). }
  assert (Hal' : aligned scaled = true).
  { apply scale_features_steps in Hs. destruct Hs as [X [_ [_ Hset]]].
    refine (setitems_aligned _ _ _ _ _ Hset).
    apply encode_features_steps in He.
    destruct He as [typ [ranks [e1 [failure [_ [_ [He1 [_ Hout]]]]]]]].
    eapply setitem_aligned; [| exact Hout]. eapply setitem_aligned; eauto. }
  assert (Hcode : forall s, In s v ->
            In (CNum (Qc_of_nat (index_of String.compare s
                                   (unique_sorted String.compare v))))
               (series_cells (NumSeries (map Qc_of_nat (label_codes String.compare v))))).
  { intros s Hs'. cbn [series_cells]. apply in_map, in_map.
    unfold label_codes. now apply (in_map (fun x => index_of String.compare x _)). }
  split.
  - intros [a [b [Ha [Hb Hne]]]].
    eapply (oversample_data_succeeds scaled g _ _ _ Hal' Hlab).
    + cbn [classification_target]. apply forallb_forall. intros q Hq.
      apply in_map_iff in Hq. destruct Hq as [n [<- _]]. apply is_integral_of_nat.
    + exact (Hcode a Ha).
    + exact (Hcode b Hb).
    + intros Heq.
      assert (Hq : Qc_of_nat (index_of String.compare a (unique_sorted String.compare v))
                   = Qc_of_nat (index_of String.compare b (unique_sorted String.compare v)))
        by congruence.
      apply Qc_of_nat_inj in Hq.
      apply (index_of_eq_iff String.compare) in Hq;
        [contradiction | |]; now apply (In_unique_sorted String.compare).
  - intros [c Hall].
    apply (oversample_data_single_class G RS scaled g _
             (CNum (Qc_of_nat (index_of String.compare c
                                 (unique_sorted String.compare v))))
             Hlab).
    intros x Hx. cbn [series_cells] in Hx. apply in_map_iff in Hx.
    destruct Hx as [q [<- Hq]]. apply in_map_iff in Hq. destruct Hq as [n [<- Hn]].
    unfold label_codes in Hn. apply in_map_iff in Hn. destruct Hn as [s [<- Hs']].
    now rewrite (Hall s Hs').
Qed.

Lemma oversample_after_encoding_witness :
  exists out g', oversample_data scaled_df 0 = (Ok out, g').
Proof.
  apply (proj1 (oversample_after_encoding nat CounterSource
                  celsius_df encoded_df scaled_df
                  ["No Failure"; "No Failure"; "Power Failure"; "No Failure";
                   "Heat Dissipation Failure"; "Power Failure"] 0
                  eq_refl eq_refl eq_refl eq_refl)).
  exists "No Failure", "Power Failure". simpl.
  split; [tauto |]. split; [tauto | discriminate].
Defined.

(** X20: [train_test_split] always succeeds on the table a successful
    [oversample_data] returned; its two parts together have the rows of
    that table and their feature columns are the feature columns the table
    had before oversampling, in the same order. *)
Theorem split_after_oversampling :
  forall (G : Type) (RS : RandomSource G) (df out : DataFrame) (g g' g2 : G),
    aligned df = true ->
    oversample_data df g = (Ok out, g') ->
    exists parts,
      train_test_split out g2 = (Ok parts, g2) /\
      nrows (X_train parts) + nrows (X_test parts) = nrows out /\
      names (X_train parts) =
        filter (fun n => negb (String.eqb n "type_of_failure")) (names df) /\
      names (X_test parts) = names (X_train parts).
Proof.
  intros G RS df out g g' g2 Hal Ho.
  destruct (oversample_data_two_classes df g out g' Ho)
    as [y [a [b [Hy [Ha [Hb Hne]]]]]].
  destruct (oversample_data_shape df g out g' Hal Ho)
    as [y0 [idx [_ [Hlab [_ [Hle [Hal' _]]]]]]].
  assert (Hrows : 2 <= nrows out).
  { pose proof (two_distinct_length _ _ a b Ha Hb Hne) as H2.
    rewrite series_len_cells, (aligned_getitem _ _ _ Hal Hy) in H2. lia. }
  destruct (train_test_split_succeeds out g2 _ Hlab
              (aligned_getitem _ _ _ Hal' Hlab) Hrows) as [parts Hs].
  exists parts. split; [exact Hs |].
  apply train_test_split_inv in Hs.
  destruct Hs as [y' [perm [_ [_ [Hperm [_ ->]]]]]].
  cbn [X_test X_train]. rewrite !take_rows_names.
  assert (Hpl : length perm = nrows out).
  { rewrite (Permutation_length Hperm). apply length_seq. }
  split; [| split; [| reflexivity]].
  - cbn [take_rows nrows]. rewrite length_firstn, length_skipn, Hpl.
    pose proof (test_size_le (nrows out)). lia.
  - rewrite feature_column_names.
    apply oversample_data_inv in Ho.
    destruct Ho as [y1 [extra [_ [_ [_ [_ [_ [_ ->]]]]]]]].
    rewrite resampled_names, filter_app, filter_twice.
    replace (filter (fun n => negb (String.eqb n "type_of_failure")) ["type_of_failure"])
      with (@nil string) by reflexivity.
    apply app_nil_r.
Qed.

Lemma split_after_oversampling_witness :
  exists parts,
    train_test_split balanced_df 11 = (Ok parts, 11) /\
    nrows (X_train parts) + nrows (X_test parts) = nrows balanced_df /\
    names (X_train parts) =
      filter (fun n => negb (String.eqb n "type_of_failure")) (names scaled_df) /\
    names (X_test parts) = names (X_train parts).
Proof.
  apply (split_after_oversampling nat CounterSource scaled_df balanced_df 0 3 11).
  - reflexivity.
  - vm_compute. reflexivity.
Defined.

(** ** The in-place stages *)

Lemma rename_absent : forall df old new,
    has_column df old = false -> rename df old new = df.
Proof.
  intros [n cols] old new Hc. unfold rename, has_column, names in *.
  cbn [nrows columns] in *. f_equal.
  induction cols as [| [c s] cols IH]; [reflexivity |].
  cbn [map fst existsb] in *. apply orb_false_iff in Hc. destruct Hc as [Hc Hr].
  rewrite String.eqb_sym, Hc. now rewrite (IH Hr).
Qed.

Lemma has_column_renamed_old : forall df old new,
    String.eqb old new = false -> has_column (rename df old new) old = false.
Proof.
  intros df old new Hne. unfold has_column, names.
  apply lookup_none. now apply lookup_rename_old.
Qed.



(** X22: when [rename_and_drop_columns] raises, the rename has already
    happened: [self.df] keeps all its columns in their order but [Target]
    is now labelled [Machine failure], and calling the stage again raises
    the same exception and changes nothing more. *)
Theorem failed_rename_and_drop_columns_state :
  forall (df : DataFrame) (e : exn) (after : option DataFrame),
    self_rename_and_drop_columns (Some df) = (Raises e, after) ->
    exists df1,
      after = Some df1 /\
      nrows df1 = nrows df /\
      names df1 =
        map (fun n => if String.eqb n "Target" then "Machine failure" else n)
            (names df) /\
      has_column df1 "Target" = false /\
      (forall s, has_column df "Machine failure" = false ->
                 getitem df "Target" = Ok s ->
                 getitem df1 "Machine failure" = Ok s) /\
      self_rename_and_drop_columns (Some df1) = (Raises e, Some df1).
Proof.
  intros df e after H. unfold self_rename_and_drop_columns in H.
  set (df1 := rename df "Target" "Machine failure") in *.
  destruct (drop df1 ["UDI"; "Product ID"]) as [df2 | e0] eqn:Ed; [discriminate |].
  injection H as He Ha. subst e0. exists df1.
  assert (Hnt : has_column df1 "Target" = false)
    by (apply has_column_renamed_old; reflexivity).
  split; [now symmetry |]. split; [reflexivity |].
  split; [apply names_rename |]. split; [exact Hnt |]. split.
  - intros s Hc Hs. unfold getitem in *. unfold df1.
    rewrite lookup_rename_new by assumption.
    destruct (lookup "Target" (columns df)); [exact Hs | discriminate].
  - unfold self_rename_and_drop_columns.
    rewrite (rename_absent df1 "Target" "Machine failure" Hnt). now rewrite Ed.
Qed.

Lemma failed_rename_and_drop_columns_state_witness :
  exists df1,
    snd (self_rename_and_drop_columns (Some no_identifiers_df)) = Some df1 /\
    names df1 = ["Type"; "Machine failure"] /\
    self_rename_and_drop_columns (Some df1)
    = (Raises (KeyError ["UDI"; "Product ID"]), Some df1).
Proof.
  destruct (failed_rename_and_drop_columns_state no_identifiers_df
              (KeyError ["UDI"; "Product ID"])
              (snd (self_rename_and_drop_columns (Some no_identifiers_df))))
    as [df1 [Ha [_ [Hn [_ [_ Hagain]]]]]].
  - reflexivity.
  - exists df1. split; [exact Ha |]. split; [rewrite Hn; reflexivity | exact Hagain].
Defined.

(** X23: [convert_temperature] can stop half-way: when the air column is
    numeric but the process column is missing or holds strings, the call
    raises after it has added [Air temperature [c]]; [self.df] then holds
    the new Celsius column, still holds [Air temperature [K]], and every
    other column is what it was.  When the air column itself is missing,
    [self.df] is untouched. *)
Theorem failed_convert_temperature_state :
  forall df : DataFrame,
    aligned df = true ->
    (has_column df "Air temperature [K]" = false ->
     self_convert_temperature (Some df)
     = (Raises (KeyError ["Air temperature [K]"]), Some df)) /\
    (forall a,
        getitem df "Air temperature [K]" = Ok (NumSeries a) ->
        (has_column df "Process temperature [K]" = false \/
         exists s v, getitem df "Process temperature [K]" = Ok (StrSeries (s :: v))) ->
        exists e df1,
          self_convert_temperature (Some df) = (Raises e, Some df1) /\
          getitem df1 "Air temperature [c]"
            = Ok (NumSeries (map (fun k => (k - kelvin_offset)%Qc) a)) /\
          getitem df1 "Air temperature [K]" = Ok (NumSeries a) /\
          forall name, name <> "Air temperature [c]" ->
                       getitem df1 name = getitem df name).
Proof.
  intros df Hal. split.
  - intros Hc. unfold self_convert_temperature.
    now rewrite (getitem_missing _ _ Hc).
  - intros a Ha Hproc.
    destruct (setitem_succeeds df "Air temperature [c]"
                (NumSeries (map (fun k => (k - kelvin_offset)%Qc) a))) as [df1 H1].
    { simpl. rewrite length_map. exact (aligned_getitem _ _ _ Hal Ha). }
    assert (Hstate : getitem df1 "Air temperature [c]"
                       = Ok (NumSeries (map (fun k => (k - kelvin_offset)%Qc) a)) /\
                     getitem df1 "Air temperature [K]" = Ok (NumSeries a) /\
                     forall name, name <> "Air temperature [c]" ->
                                  getitem df1 name = getitem df name).
    { split; [exact (getitem_setitem_same _ _ _ _ H1) |]. split.
      - now rewrite (getitem_setitem_other _ _ _ _ _ H1).
      - intros name Hne. apply (getitem_setitem_other _ _ _ _ _ H1).
        now apply String.eqb_neq. }
    assert (Hfirst : self_convert_temperature (Some df) =
              match (proc <- getitem df1 "Process temperature [K]" ;;
                     procc <- series_sub proc kelvin_offset ;;
                     setitem df1 "Process temperature [c]" procc) with
              | Err e => (Raises e, Some df1)
              | Ok df2 =>
                  match drop df2 ["Air temperature [K]"; "Process temperature [K]"] with
                  | Ok df3 => (Done, Some df3)
                  | Err e => (Raises e, Some df2)
                  end
              end).
    { unfold self_convert_temperature. rewrite Ha. cbn [bind series_sub].
      now rewrite H1. }
    rewrite Hfirst, (getitem_setitem_other _ _ _ _ _ H1) by reflexivity.
    destruct Hproc as [Hc | [s [v Hs]]].
    + rewrite (getitem_missing _ _ Hc). cbn [bind]. eauto.
    + rewrite Hs. cbn [bind series_sub]. eauto.
Qed.

Lemma failed_convert_temperature_state_witness :
  exists e df1,
    self_convert_temperature (Some air_only_df) = (Raises e, Some df1) /\
    getitem df1 "Air temperature [c]"
      = Ok (NumSeries (map (fun k => (k - kelvin_offset)%Qc)
                           (map tenths [2981; 2992]%Z))) /\
    getitem df1 "Air temperature [K]" = Ok (NumSeries (map tenths [2981; 2992]%Z)) /\
    forall name, name <> "Air temperature [c]" ->
                 getitem df1 name = getitem air_only_df name.
Proof.
  apply (proj2 (failed_convert_temperature_state air_only_df eq_refl)).
  - reflexivity.
  - left. reflexivity.
Defined.

(** X24: [encode_features] can stop half-way: when [Type] is valid but
    [Failure Type] is missing, the call raises [KeyError] after it has
    overwritten [Type] with ranks; every other column is what it was, and
    calling the stage again raises [ValueError], because [Type] is now
    numeric. *)
Theorem failed_encode_features_state :
  forall (df : DataFrame) (v : list string),
    aligned df = true ->
    getitem df "Type" = Ok (StrSeries v) ->
    v <> [] ->
    (forall s, In s v -> In s type_categories) ->
    has_column df "Failure Type" = false ->
    exists df1 ranks,
      self_encode_features (Some df)
      = (Raises (KeyError ["Failure Type"]), Some df1) /\
      getitem df1 "Type" = Ok (NumSeries ranks) /\
      length ranks = length v /\
      (forall name, name <> "Type" -> getitem df1 name = getitem df name) /\
      self_encode_features (Some df1) = (Raises ValueError, Some df1).
Proof.
  intros df v Hal Hv Hne Hall Hc.
  set (ranks := map (fun x => Qc_of_nat (index_of String.compare x type_categories)) v).
  destruct (setitem_succeeds df "Type" (NumSeries ranks)) as [df1 H1].
  { simpl. unfold ranks. rewrite length_map. exact (aligned_getitem _ _ _ Hal Hv). }
  exists df1, ranks.
  assert (Ht : getitem df1 "Type" = Ok (NumSeries ranks))
    by exact (getitem_setitem_same _ _ _ _ H1).
  split; [| split; [exact Ht | split; [| split]]].
  - unfold self_encode_features. rewrite Hv. cbn [bind].
    rewrite (ordinal_fit_transform_succeeds _ v Hne Hall). cbn [bind].
    fold ranks. rewrite H1.
    rewrite (getitem_setitem_other _ _ _ _ _ H1) by reflexivity.
    now rewrite (getitem_missing _ _ Hc).
  - unfold ranks. apply length_map.
  - intros name Hn. apply (getitem_setitem_other _ _ _ _ _ H1).
    now apply String.eqb_neq.
  - unfold self_encode_features. now rewrite Ht.
Qed.

Lemma failed_encode_features_state_witness :
  exists df1 ranks,
    self_encode_features (Some no_identifiers_df)
    = (Raises (KeyError ["Failure Type"]), Some df1) /\
    getitem df1 "Type" = Ok (NumSeries ranks) /\
    length ranks = 2 /\
    (forall name, name <> "Type" -> getitem df1 name = getitem no_identifiers_df name) /\
    self_encode_features (Some df1) = (Raises ValueError, Some df1).
Proof.
  apply (failed_encode_features_state no_identifiers_df ["L"; "M"]).
  - reflexivity.
  - reflexivity.
  - discriminate.
  - simpl. intuition.
  - reflexivity.
Defined.
